(** * Drive Rotate Viewer: a shallow embedding of [content.js]

    The content script keeps five module-level variables
    ([currentFileId], [currentTarget], [angle], [flipX], [initAttempts]),
    searches the page for the media element to rotate, and persists the
    orientation of each file in [chrome.storage.local].

    Conventions of the embedding:
    - JavaScript numbers that the script handles are pixel sizes, degrees and
      counters; they are modelled as [Z], and [%] is the truncating
      remainder [Z.rem].  The script computes in doubles: sums, differences
      and remainders of integers are exact, and agree with [Z], as long as
      every value stays below 2^53 in magnitude.  Properties that depend on
      the arithmetic of an angle are stated within that range.
    - [null] / [undefined] are [None]; a string-valued property that may be
      missing is a [string] whose empty value is the falsy one.
    - The page is an explicit snapshot handed to each synchronous search;
      [chrome.storage.local] is a [gmap] from keys to stored records.
    - Timers, promises and event listeners become events of a step function;
      only their order is modelled, not their delays.
    - The [MutationObserver] that [initOnDrive] registers on [document.body]
      also reports the script's own writes: the status text of the toolbar
      and the class and style of the bound element.  Its callback calls
      [assignTarget]; the model arms the debounce timer at the write.  It
      does so at every write, as the DOM standard has it.  Where the
      script gets no report (the page has removed the bound element from
      [document.body], or the engine skips the write of a status text that
      is already shown) the model has a pending timer more than the script,
      which only adds runs; what is stated about the pending timer is
      stated for writes that change the page. *)

From Stdlib Require Import ZArith String Ascii List Bool Lia.
From stdpp Require Import base option list gmap strings pretty.

Local Open Scope string_scope.
Local Open Scope Z_scope.

(** ** Utilities *)

Definition EXT_NS : string := "gdr-rotator".
Definition STORAGE_PREFIX : string := "gdr:rotation:".
Definition TOOLBAR_ID : string := "gdr-rotator-toolbar".
Definition MAX_INIT_ATTEMPTS : Z := 20.

(** [s.includes(needle)] *)
Fixpoint includes (needle hay : string) : bool :=
  String.prefix needle hay ||
  match hay with
  | EmptyString => false
  | String _ rest => includes needle rest
  end.

(** Truthiness of a string-valued expression (the empty string and a missing
    value are both falsy). *)
Definition truthy_str (s : string) : bool := negb (String.eqb s EmptyString).

(** Truthiness of [fileId] in [if (!fileId)]: [null] and the empty string are
    falsy. *)
Definition truthy_id (fileId : option string) : bool :=
  match fileId with
  | None => false
  | Some s => truthy_str s
  end.

(** [a || b] on numbers: [undefined] and [0] are falsy. *)
Definition num_or (a : option Z) (b : Z) : Z :=
  match a with
  | Some v => if v =? 0 then b else v
  | None => b
  end.

(** The longest prefix of [s] without a slash: what [([^/]+)] captures. *)
Fixpoint until_slash (s : string) : string :=
  match s with
  | EmptyString => EmptyString
  | String c rest =>
      if Ascii.eqb c "/"%char then EmptyString else String c (until_slash rest)
  end.

(** [s] without its first [n] characters. *)
Fixpoint drop_chars (n : nat) (s : string) : string :=
  match n, s with
  | O, _ => s
  | S n', String _ rest => drop_chars n' rest
  | S _, EmptyString => EmptyString
  end.

(** [url.match(/\/file\/d\/([^/]+)/)]: the leftmost position where
    ["/file/d/"] is followed by at least one character other than a slash;
    the capture is greedy. *)
Fixpoint getFileIdFromUrl (url : string) : option string :=
  match url with
  | EmptyString => None
  | String _ rest =>
      let m := until_slash (drop_chars 8 url) in
      if String.prefix "/file/d/" url && truthy_str m then Some m
      else getFileIdFromUrl rest
  end.

(** [getFileIdFromUrl() || "general"] *)
Definition fileIdOrGeneral (url : string) : string :=
  match getFileIdFromUrl url with
  | Some m => if truthy_str m then m else "general"
  | None => "general"
  end.

(** [url.includes('drive.google.com')] *)
Definition isDriveUrl (url : string) : bool := includes "drive.google.com" url.

(** ** The page, as the Target Locator reads it *)

(** What the locator reads of an element: its bounding rectangle, its
    computed style, its intrinsic size and its source address.  [node] is the
    identity of the DOM node ([el !== currentTarget] compares references). *)
Record Element := mkElement {
  node : nat;
  tagName : string;
  rect_width : Z;
  rect_height : Z;
  display : string;
  visibility : string;
  position : string;
  offsetParent : option nat;
  naturalWidth : option Z;
  naturalHeight : option Z;
  videoWidth : option Z;
  videoHeight : option Z;
  src : string
}.

(** [document.querySelectorAll(selector)] on the current page, in document
    order. *)
Definition Document := string -> list Element.

(** The double-quote character of the attribute selectors. *)
Definition dq : string := String (ascii_of_nat 34) EmptyString.

(** The selector list of [findLargestMediaElement], in its source order. *)
Definition selectors : list string :=
  [ "[data-testid=" ++ dq ++ "preview-image" ++ dq ++ "] img";
    "[data-testid=" ++ dq ++ "preview-video" ++ dq ++ "] video";
    "[role=" ++ dq ++ "main" ++ dq ++ "] img";
    "[role=" ++ dq ++ "main" ++ dq ++ "] video";
    "[aria-label*=" ++ dq ++ "preview" ++ dq ++ "] img";
    "[aria-label*=" ++ dq ++ "preview" ++ dq ++ "] video";
    "img[src*=" ++ dq ++ "googleusercontent.com" ++ dq ++ "]";
    "video[src*=" ++ dq ++ "googleusercontent.com" ++ dq ++ "]";
    "img[src*=" ++ dq ++ "docs.google.com" ++ dq ++ "]";
    "video[src*=" ++ dq ++ "docs.google.com" ++ dq ++ "]";
    "[role=" ++ dq ++ "img" ++ dq ++ "] img";
    ".ndfHFb-c4YZDc img";
    ".ndfHFb-c4YZDc video";
    "img[src*=" ++ dq ++ "drive.google.com" ++ dq ++ "]";
    "video[src*=" ++ dq ++ "drive.google.com" ++ dq ++ "]";
    "img";
    "video" ].

(** The callback of [elements.filter] in [findLargestMediaElement]. *)
Definition media_filter (el : Element) : bool :=
  if (rect_width el <? 30) || (rect_height el <? 30) then false
  else if String.eqb (display el) "none" || String.eqb (visibility el) "hidden"
  then false
  else if negb (bool_decide (is_Some (offsetParent el)))
          && negb (String.eqb (position el) "fixed")
          && negb (String.eqb (position el) "absolute")
  then false
  else
    let w := num_or (naturalWidth el) (num_or (videoWidth el) (rect_width el)) in
    let h := num_or (naturalHeight el) (num_or (videoHeight el) (rect_height el)) in
    if (w <? 50) || (h <? 50) then false
    else if truthy_str (src el)
            && (includes "icon" (src el) || includes "thumbnail" (src el)
                || includes "favicon" (src el))
    then false
    else true.

(** The [for (const selector of selectors)] loop: [allCandidates] receives
    the filtered elements of the first selector whose filtered list is not
    empty, and the loop breaks there. *)
Fixpoint collectCandidates (doc : Document) (sels : list string) : list Element :=
  match sels with
  | [] => []
  | selector :: rest =>
      let filtered := List.filter media_filter (doc selector) in
      if (0 <? Z.of_nat (length filtered)) then filtered
      else collectCandidates doc rest
  end.

(** [width * height] of the bounding rectangle. *)
Definition area (el : Element) : Z := rect_width el * rect_height el.

(** The comparator handed to [allCandidates.sort]. *)
Definition compareFn (a b : Element) : Z := area b - area a.

(** [Array.prototype.sort] is a stable sort; with a comparator that is a
    consistent ordering its result is determined, and insertion from the
    right computes it. *)
Fixpoint sort_insert {A} (cmp : A -> A -> Z) (x : A) (l : list A) : list A :=
  match l with
  | [] => [x]
  | y :: l' => if cmp x y <=? 0 then x :: l else y :: sort_insert cmp x l'
  end.

Definition sort {A} (cmp : A -> A -> Z) (l : list A) : list A :=
  foldr (sort_insert cmp) [] l.

Definition findLargestMediaElement (doc : Document) : option Element :=
  let allCandidates := collectCandidates doc selectors in
  if (Z.of_nat (length allCandidates) =? 0) then None
  else head (sort compareFn allCandidates).

(** [isDriveFilePreviewUrl]: the address contains
    [https://drive.google.com/file/d/], a non-empty run of characters other
    than a slash, a slash, and [view] or [preview]. *)
Fixpoint isDriveFilePreviewUrl (url : string) : bool :=
  match url with
  | EmptyString => false
  | String _ rest =>
      let tail := drop_chars 32 url in
      let id := until_slash tail in
      let after := drop_chars (String.length id) tail in
      (String.prefix "https://drive.google.com/file/d/" url && truthy_str id
       && (String.prefix "/view" after || String.prefix "/preview" after))
      || isDriveFilePreviewUrl rest
  end.

(** [c.toLowerCase()] on the letters the shortcuts compare with. *)
Definition lower_char (c : ascii) : ascii :=
  let n := nat_of_ascii c in
  if ((65 <=? n)%nat && (n <=? 90)%nat)%bool then ascii_of_nat (n + 32) else c.

Fixpoint toLowerCase (s : string) : string :=
  match s with
  | EmptyString => EmptyString
  | String c rest => String (lower_char c) (toLowerCase rest)
  end.

(** ** State Store *)

(** A value stored under a file's key: the object [{ angle, flipX }].  A
    field that is [null] or missing in the stored object is [None]. *)
Record Saved := mkSaved {
  s_angle : option Z;
  s_flipX : option bool
}.

(** [chrome.storage.local.set({ [key]: state })].  Whether the browser
    accepts the write is the environment's choice; [None] is the rejected
    promise. *)
Definition storage_set (accepted : bool) (key : string) (state : Saved)
    (items : gmap string Saved) : option (gmap string Saved) :=
  if accepted then Some (<[key := state]> items) else None.

(** [saveState(fileId, state)]; the rejected promise is swallowed by
    [.catch(() => {})]. *)
Definition saveState (accepted : bool) (fileId : option string) (state : Saved)
    (items : gmap string Saved) : gmap string Saved :=
  if negb (truthy_id fileId) then items
  else
    let key := (STORAGE_PREFIX ++ default EmptyString fileId)%string in
    match storage_set accepted key state items with
    | Some items' => items'
    | None => items
    end.

(** [loadState(fileId)]: the value the promise resolves with.  A stored
    record is an object, hence truthy in [obj[key] || null]. *)
Definition loadState (fileId : option string) (items : gmap string Saved)
    : option Saved :=
  if negb (truthy_id fileId) then None
  else items !! (STORAGE_PREFIX ++ default EmptyString fileId)%string.

(** ** The script's state *)

(** What [applyTransform] has written on an element.  [a_objectFit = None]
    means the element's own value was left as it was. *)
Record Applied := mkApplied {
  a_class : string;
  a_transform : string;
  a_objectFit : option string;
  a_maxWidth : string;
  a_maxHeight : string
}.

(** Where [init] / [initOnDrive] stand. *)
Inductive Phase :=
| Loaded        (* the script is evaluated, init has not run *)
| Inactive      (* init ran on a page that is not a Drive page *)
| Scheduled     (* init has set the 500 ms timer of initOnDrive *)
| Initialising  (* initOnDrive awaits loadRotationState *)
| Watching.     (* assignTarget and the observers are set up *)

Record State := mkState {
  currentFileId : option string;
  currentTarget : option Element;
  angle : Z;
  flipX : bool;
  initAttempts : Z;
  last : string;                       (* of watchUrlChanges *)
  storage : gmap string Saved;         (* chrome.storage.local *)
  loads : list (option Saved * bool);  (* loadState promises not yet resolved,
                                          oldest first; the flag marks the one
                                          initOnDrive awaits *)
  styled : gmap nat Applied;           (* writes of applyTransform, by node *)
  status : option string;              (* text of .gdr-status; None: no toolbar *)
  phase : Phase;
  debounce_t : bool;                   (* the timer of debounce is pending *)
  retries : nat                        (* pending setTimeout(assignTarget, 1000) *)
}.

Definition set_currentFileId v s :=
  mkState v (currentTarget s) (angle s) (flipX s) (initAttempts s) (last s)
    (storage s) (loads s) (styled s) (status s) (phase s) (debounce_t s) (retries s).
Definition set_currentTarget v s :=
  mkState (currentFileId s) v (angle s) (flipX s) (initAttempts s) (last s)
    (storage s) (loads s) (styled s) (status s) (phase s) (debounce_t s) (retries s).
Definition set_angle v s :=
  mkState (currentFileId s) (currentTarget s) v (flipX s) (initAttempts s) (last s)
    (storage s) (loads s) (styled s) (status s) (phase s) (debounce_t s) (retries s).
Definition set_flipX v s :=
  mkState (currentFileId s) (currentTarget s) (angle s) v (initAttempts s) (last s)
    (storage s) (loads s) (styled s) (status s) (phase s) (debounce_t s) (retries s).
Definition set_initAttempts v s :=
  mkState (currentFileId s) (currentTarget s) (angle s) (flipX s) v (last s)
    (storage s) (loads s) (styled s) (status s) (phase s) (debounce_t s) (retries s).
Definition set_last v s :=
  mkState (currentFileId s) (currentTarget s) (angle s) (flipX s) (initAttempts s) v
    (storage s) (loads s) (styled s) (status s) (phase s) (debounce_t s) (retries s).
Definition set_storage v s :=
  mkState (currentFileId s) (currentTarget s) (angle s) (flipX s) (initAttempts s)
    (last s) v (loads s) (styled s) (status s) (phase s) (debounce_t s) (retries s).
Definition set_loads v s :=
  mkState (currentFileId s) (currentTarget s) (angle s) (flipX s) (initAttempts s)
    (last s) (storage s) v (styled s) (status s) (phase s) (debounce_t s) (retries s).
Definition set_styled v s :=
  mkState (currentFileId s) (currentTarget s) (angle s) (flipX s) (initAttempts s)
    (last s) (storage s) (loads s) v (status s) (phase s) (debounce_t s) (retries s).
Definition set_status v s :=
  mkState (currentFileId s) (currentTarget s) (angle s) (flipX s) (initAttempts s)
    (last s) (storage s) (loads s) (styled s) v (phase s) (debounce_t s) (retries s).
Definition set_phase v s :=
  mkState (currentFileId s) (currentTarget s) (angle s) (flipX s) (initAttempts s)
    (last s) (storage s) (loads s) (styled s) (status s) v (debounce_t s) (retries s).
Definition set_debounce_t v s :=
  mkState (currentFileId s) (currentTarget s) (angle s) (flipX s) (initAttempts s)
    (last s) (storage s) (loads s) (styled s) (status s) (phase s) v (retries s).
Definition set_retries v s :=
  mkState (currentFileId s) (currentTarget s) (angle s) (flipX s) (initAttempts s)
    (last s) (storage s) (loads s) (styled s) (status s) (phase s) (debounce_t s) v.

(** The state when the script has just been evaluated on a page whose
    address is [href], with [items] in the extension's storage. *)
Definition initial (href : string) (items : gmap string Saved) : State :=
  mkState None None 0 false 0 href items [] ∅ None Loaded false 0.

(** ** Transform Engine *)

Definition transform_string (a : Z) (f : bool) : string :=
  ("rotate(" ++ pretty a ++ "deg)" ++ (if f then " scaleX(-1)" else EmptyString))%string.

(** A call of the debounced [assignTarget]: it (re)arms the 300 ms timer. *)
Definition assignTarget (s : State) : State := set_debounce_t true s.

(** A write of the script inside [document.body].  Once the observer of
    [initOnDrive] is registered, the write is reported to its callback,
    [() => { assignTarget(); }]. *)
Definition observeWrite (s : State) : State :=
  match phase s with
  | Watching => assignTarget s
  | _ => s
  end.

Definition applyTransform (s : State) : State :=
  match currentTarget s with
  | None => s
  | Some el =>
      let fit :=
        if String.eqb (tagName el) "VIDEO" then Some "contain"
        else (styled s !! node el) ≫= a_objectFit in
      observeWrite
        (set_styled
           (<[node el := mkApplied "gdr-rot-target"
                           (transform_string (angle s) (flipX s)) fit "100%" "100%"]>
              (styled s)) s)
  end.

Definition setTarget (el : option Element) (s : State) : State :=
  match el with
  | None => s
  | Some e => applyTransform (set_currentTarget (Some e) s)
  end.

Definition updateToolbarStatus (message : string) (s : State) : State :=
  match status s with
  | None => s
  | Some _ => observeWrite (set_status (Some message) s)
  end.

(** ** Toolbar UI *)

(** The object [{ angle, flipX }] built from the current variables. *)
Definition current_record (s : State) : Saved :=
  mkSaved (Some (angle s)) (Some (flipX s)).

(** The common tail of both handlers:
    [applyTransform(); saveState(currentFileId, { angle, flipX })]. *)
Definition apply_and_save (accepted : bool) (s : State) : State :=
  let s := applyTransform s in
  set_storage (saveState accepted (currentFileId s) (current_record s) (storage s)) s.

(** [ensureToolbar]: creates the toolbar unless it exists. *)
Definition ensureToolbar (href : string) (s : State) : State :=
  match status s with
  | Some _ => s
  | None =>
      set_status
        (Some (if isDriveFilePreviewUrl href then "Looking for media..."
               else "Navigate to file preview")) s
  end.

(** The click listener of the toolbar.  [action] is the [data-action] of the
    closest button, [None] when the click is not on a button. *)
Definition onClick (action : option string) (accepted : bool) (s : State) : State :=
  match action with
  | None => s
  | Some action =>
      let s := if String.eqb action "left"
               then set_angle (Z.rem (angle s - 90 + 360) 360) s else s in
      let s := if String.eqb action "right"
               then set_angle (Z.rem (angle s + 90) 360) s else s in
      let s := if String.eqb action "flip"
               then set_flipX (negb (flipX s)) s else s in
      let s := if String.eqb action "reset"
               then set_flipX false (set_angle 0 s) else s in
      apply_and_save accepted s
  end.

(** What the keydown listener reads of its event.  [typing] holds when the
    active element is an input, a textarea or content-editable. *)
Record KeyEvent := mkKeyEvent {
  shiftKey : bool;
  key : string;
  typing : bool
}.

Definition onKeydown (e : KeyEvent) (accepted : bool) (s : State) : State :=
  if typing e then s
  else if negb (shiftKey e) then s
  else if String.eqb (toLowerCase (key e)) "r"
  then apply_and_save accepted (set_angle (Z.rem (angle s + 90) 360) s)
  else if String.eqb (toLowerCase (key e)) "l"
  then apply_and_save accepted (set_angle (Z.rem (angle s - 90 + 360) 360) s)
  else if String.eqb (key e) "0"
  then apply_and_save accepted (set_flipX false (set_angle 0 s))
  else if String.eqb (toLowerCase (key e)) "f"
  then apply_and_save accepted (set_flipX (negb (flipX s)) s)
  else s.

(** ** Loading the saved orientation *)

(** [loadRotationState] up to its [await]: the early return, or the read of
    the storage queued until its callback runs.  Storage requests are served
    in the order they are issued, so the value read is fixed here. *)
Definition loadRotationState_call (awaited : bool) (s : State) : State :=
  if negb (truthy_id (currentFileId s)) then s
  else set_loads (loads s ++ [(loadState (currentFileId s) (storage s), awaited)]) s.

(** [loadRotationState] after its [await]:
    [angle = saved?.angle ?? 0; flipX = saved?.flipX ?? false]. *)
Definition loadRotationState_resume (saved : option Saved) (s : State) : State :=
  let s := set_angle (default 0 (saved ≫= s_angle)) s in
  let s := set_flipX (default false (saved ≫= s_flipX)) s in
  match currentTarget s with
  | Some _ => applyTransform s
  | None => s
  end.

(** [teardown]; the script defines it and calls it nowhere. *)
Definition teardown (s : State) : State := set_currentTarget None s.

(** ** Navigation Watcher *)

(** One run of [tick], with [now = location.href]. *)
Definition tick (now : string) (s : State) : State :=
  if String.eqb now (last s) then s
  else
    let s := set_last now s in
    let newFileId := fileIdOrGeneral now in
    let s :=
      if negb (bool_decide (currentFileId s = Some newFileId))
      then loadRotationState_call false (set_currentFileId (Some newFileId) s)
      else s in
    set_initAttempts 0 s.

(** ** Lifecycle Orchestrator *)

Definition same_node (el : Element) (target : option Element) : bool :=
  match target with
  | Some t => Nat.eqb (node el) (node t)
  | None => false
  end.

(** The function wrapped by [debounce], run when the timer fires on the
    page [doc]. *)
Definition assignTarget_body (doc : Document) (s : State) : State :=
  let s := set_initAttempts (initAttempts s + 1) s in
  match findLargestMediaElement doc with
  | Some el =>
      if negb (same_node el (currentTarget s))
      then updateToolbarStatus "Media found - Ready to rotate!" (setTarget (Some el) s)
      else s
  | None =>
      if initAttempts s <=? 3
      then set_retries (S (retries s))
             (updateToolbarStatus
                ("Searching for media... (" ++ pretty (initAttempts s) ++ ")")%string s)
      else updateToolbarStatus "No media found - click on image/video" s
  end.

(** [initOnDrive] after its [await]: the first call of [assignTarget] and
    the registration of the observers. *)
Definition startWatching (s : State) : State := assignTarget (set_phase Watching s).

(** [init], run once when the DOM is ready. *)
Definition init (href : string) (s : State) : State :=
  if isDriveUrl href then set_phase Scheduled s else set_phase Inactive s.

(** [initOnDrive] up to its [await]. *)
Definition initOnDrive (href : string) (s : State) : State :=
  let s := set_currentFileId (Some (fileIdOrGeneral href)) s in
  let s := ensureToolbar href s in
  if negb (truthy_id (currentFileId s)) then startWatching s
  else loadRotationState_call true (set_phase Initialising s).

(** ** Events *)

Inductive Event :=
| EvInit (href : string)                        (* the DOM is ready: init *)
| EvInitTimer (href : string)                   (* the 500 ms timer: initOnDrive *)
| EvClick (action : option string) (accepted : bool)
| EvKeydown (e : KeyEvent) (accepted : bool)
| EvTick (now : string)                         (* an animation frame *)
| EvLoadResolved                                (* callback of the oldest storage read *)
| EvTrigger                                     (* mutation by the page, or resize *)
| EvRetryTimer                                  (* a 1000 ms retry timer fires *)
| EvDebounceTimer (doc : Document)              (* the debounce timer fires *)
| EvTeardown.

(** An event that cannot happen in a state (a listener that is not
    registered, a timer that is not pending) leaves the state as it is. *)
Definition step (s : State) (ev : Event) : State :=
  match ev with
  | EvInit href =>
      match phase s with
      | Loaded => init href s
      | _ => s
      end
  | EvInitTimer href =>
      match phase s with
      | Scheduled => initOnDrive href s
      | _ => s
      end
  | EvClick action accepted =>
      match status s with
      | Some _ => onClick action accepted s
      | None => s
      end
  | EvKeydown e accepted =>
      match status s with
      | Some _ => onKeydown e accepted s
      | None => s
      end
  | EvTick now => tick now s
  | EvLoadResolved =>
      match loads s with
      | [] => s
      | (saved, awaited) :: rest =>
          let s := loadRotationState_resume saved (set_loads rest s) in
          if awaited then startWatching s else s
      end
  | EvTrigger =>
      match phase s with
      | Watching => assignTarget s
      | _ => s
      end
  | EvRetryTimer =>
      match retries s with
      | O => s
      | S n => assignTarget (set_retries n s)
      end
  | EvDebounceTimer doc =>
      if debounce_t s then assignTarget_body doc (set_debounce_t false s) else s
  | EvTeardown => teardown s
  end.

Definition run (s : State) (evs : list Event) : State := foldl step s evs.

(** * Vocabulary of the properties *)

(** ** Target Locator *)

(** The comparator "largest [f] first", as [compareFn] is for [area]. *)
Definition by_largest {A} (f : A -> Z) (a b : A) : Z := f b - f a.

(** Descending order of [f] along a list. *)
Fixpoint descending {A} (f : A -> Z) (l : list A) : Prop :=
  match l with
  | [] => True
  | x :: l' => Forall (fun y => f y <= f x) l' /\ descending f l'
  end.

(** The search pass in the words of the specification (Target Locator,
    steps 2 to 5): commit to the first selector that yields at least one
    element, filter its matches, take the largest; no later selector is
    consulted, also when the filter removes every match. *)
Definition first_matching (doc : Document) (sels : list string) : option string :=
  List.find (fun selector => negb (Z.of_nat (length (doc selector)) =? 0)) sels.

Definition spec_search_pass (doc : Document) : option Element :=
  match first_matching doc selectors with
  | None => None
  | Some selector => head (sort compareFn (List.filter media_filter (doc selector)))
  end.

(** [naturalWidth || videoWidth]: the intrinsic size the filter sees, [None]
    when both are 0 or missing. *)
Definition intrinsic (natural video : option Z) : option Z :=
  match natural with
  | Some v => if v =? 0 then (match video with
                              | Some u => if u =? 0 then None else Some u
                              | None => None
                              end)
              else Some v
  | None => match video with
            | Some u => if u =? 0 then None else Some u
            | None => None
            end
  end.

(** The widths and heights the test [w < 50 || h < 50] compares. *)
Definition tested_width (el : Element) : Z :=
  default (rect_width el) (intrinsic (naturalWidth el) (videoWidth el)).
Definition tested_height (el : Element) : Z :=
  default (rect_height el) (intrinsic (naturalHeight el) (videoHeight el)).

(** ** Orientation state *)

(** The four angles of the data model. *)
Definition valid_angle (a : Z) : Prop := a = 0 \/ a = 90 \/ a = 180 \/ a = 270.

(** The integers on which the handlers compute exactly: the angle and the
    intermediate values [angle + 90] and [angle - 90 + 360] stay below 2^53
    in magnitude, where the script's doubles agree with [Z]. *)
Definition exact_angle (a : Z) : Prop := Z.abs a <= 2 ^ 53 - 360.

(** The two angle updates of the handlers. *)
Definition rotateRight (a : Z) : Z := Z.rem (a + 90) 360.
Definition rotateLeft (a : Z) : Z := Z.rem (a - 90 + 360) 360.

(** Events that rotate right: a click on the button whose action is
    [right], or Shift+R while not typing.  Likewise to the left. *)
Inductive rotate_right_event : Event -> Prop :=
| rr_click accepted : rotate_right_event (EvClick (Some "right") accepted)
| rr_key e accepted :
    typing e = false -> shiftKey e = true -> toLowerCase (key e) = "r" ->
    rotate_right_event (EvKeydown e accepted).

Inductive rotate_left_event : Event -> Prop :=
| rl_click accepted : rotate_left_event (EvClick (Some "left") accepted)
| rl_key e accepted :
    typing e = false -> shiftKey e = true -> toLowerCase (key e) = "l" ->
    rotate_left_event (EvKeydown e accepted).

(** A stored record is valid when its angle, if it has one, is. *)
Definition record_valid (r : Saved) : Prop :=
  forall a, s_angle r = Some a -> valid_angle a.

Definition records_valid (items : gmap string Saved) : Prop :=
  forall k r, items !! k = Some r -> record_valid r.

(** The invariant: the angle is valid, and so is every angle that a load
    can still deliver, from the storage or from a pending read. *)
Definition Inv (s : State) : Prop :=
  valid_angle (angle s) /\ records_valid (storage s) /\
  Forall (fun p : option Saved * bool => forall r, p.1 = Some r -> record_valid r) (loads s).

(** Two states that agree on the angle, the storage and the pending reads. *)
Definition same_core (s s' : State) : Prop :=
  angle s' = angle s /\ storage s' = storage s /\ loads s' = loads s.

(** A history of calls of [saveState], oldest first: whether the browser
    accepted the write, the file identifier, the state. *)
Definition save_all (calls : list (bool * option string * Saved))
    (items : gmap string Saved) : gmap string Saved :=
  foldl (fun it c => saveState c.1.1 c.1.2 c.2 it) items calls.

(** The last saved state of file [f] in a history, in the specification's
    sense: the state of the latest call for [f] whose write was accepted. *)
Fixpoint last_saved (f : string) (calls : list (bool * option string * Saved))
    : option Saved :=
  match calls with
  | [] => None
  | (accepted, fileId, state) :: rest =>
      match last_saved f rest with
      | Some r => Some r
      | None => if accepted && bool_decide (fileId = Some f) then Some state else None
      end
  end.

(** * Example pages and sessions *)

(** An image element that is laid out, visible and attached. *)
Definition img (n : nat) (w h : Z) (natural : option Z) (source : string) : Element :=
  mkElement n "IMG" w h "block" "visible" "static" (Some 0%nat)
    natural natural None None source.

(** A 16x16 badge inside the preview container and the photo in the main
    region. *)
Definition badge : Element := img 1 16 16 (Some 16) "https://lh3.googleusercontent.com/b".
Definition photo : Element := img 2 800 600 (Some 1600) "https://lh3.googleusercontent.com/p".

Definition doc_badge_and_photo : Document := fun selector =>
  if String.eqb selector ("[data-testid=" ++ dq ++ "preview-image" ++ dq ++ "] img")%string
  then [badge]
  else if String.eqb selector ("[role=" ++ dq ++ "main" ++ dq ++ "] img")%string
  then [photo]
  else if String.eqb selector "img" then [badge; photo]
  else [].

(** An image that has not loaded yet: intrinsic size 0, laid out at 640x480. *)
Definition unloaded : Element := img 3 640 480 (Some 0) "https://lh3.googleusercontent.com/u".

(** An image drawn at 100x100 whose intrinsic size is 40x40. *)
Definition upscaled : Element := img 4 100 100 (Some 40) "https://lh3.googleusercontent.com/s".

(** Two candidates of equal area and a smaller one. *)
Definition square : Element := img 5 100 100 (Some 100) "https://lh3.googleusercontent.com/q".
Definition banner : Element := img 6 200 50 (Some 200) "https://lh3.googleusercontent.com/r".
Definition small : Element := img 7 60 60 (Some 60) "https://lh3.googleusercontent.com/t".

Definition doc_tie : Document := fun selector =>
  if String.eqb selector "img" then [small; square; banner] else [].

(** A page address of file [f1], and the state once [initOnDrive] has
    finished on it with an empty storage. *)
Definition url_f1 : string := "https://drive.google.com/file/d/f1/view".
Definition url_f2 : string := "https://drive.google.com/file/d/f2/view".
Definition ready_on_f1 : State := run (initial url_f1 ∅) [EvInit url_f1; EvInitTimer url_f1; EvLoadResolved].

(** The record of an unflipped orientation. *)
Definition quarter (a : Z) : Saved := mkSaved (Some a) (Some false).

(** A page without any media element. *)
Definition doc_empty : Document := fun _ => [].

(** Three consecutive failed attempts after [initOnDrive], on a page
    without media: the first firing of the debounce timer comes from the
    call of [assignTarget] in [initOnDrive], the next two from the reports
    of the status text that each failed search writes. *)
Definition after_three_failures : State :=
  run ready_on_f1
    [EvDebounceTimer doc_empty; EvDebounceTimer doc_empty; EvDebounceTimer doc_empty].

(** The state of the example session once the 100x100 image of [doc_tie]
    has been found and bound. *)
Definition bound_on_f1 : State := run ready_on_f1 [EvDebounceTimer doc_tie].

(** A storage whose record for [f1] carries an angle of 45 and no flip, and
    the session on [f1] started with it. *)
Definition items_45 : gmap string Saved :=
  <[(STORAGE_PREFIX ++ "f1")%string := mkSaved (Some 45) None]> ∅.
Definition ready_on_f1_45 : State :=
  run (initial url_f1 items_45) [EvInit url_f1; EvInitTimer url_f1; EvLoadResolved].

(** The two ways of rotating right once, with the write accepted. *)
Definition rotate_right_actions : list Event :=
  [EvClick (Some "right") true; EvKeydown (mkKeyEvent true "R" false) true].

(** * Vocabulary of the further properties *)

(** The element bound as target carries the transform of the current angle
    and flip. *)
Definition in_sync (s : State) : Prop :=
  match currentTarget s with
  | None => True
  | Some el =>
      a_transform <$> (styled s !! node el)
      = Some (transform_string (angle s) (flipX s))
  end.

(** The file context, when there is one, is not the empty string; without
    one there is no toolbar. *)
Definition context_ok (s : State) : Prop :=
  match currentFileId s with
  | Some f => truthy_str f = true
  | None => status s = None
  end.

(** Whether a search on the page [doc] writes to the page: it binds a newly
    found element, or, finding none, rewrites the status text of the
    toolbar.  A search that finds the element already bound writes
    nothing. *)
Definition search_writes (doc : Document) (s : State) : bool :=
  match findLargestMediaElement doc with
  | Some el => negb (same_node el (currentTarget s))
  | None => bool_decide (is_Some (status s))
  end.

(** The status text that a search finding nothing writes. *)
Definition failure_message (s : State) : string :=
  if initAttempts s + 1 <=? 3
  then ("Searching for media... (" ++ pretty (initAttempts s + 1) ++ ")")%string
  else "No media found - click on image/video".

(** Whether a search on the page [doc] changes the page: it binds a newly
    found element, or, finding none, replaces the status text by another
    text.  (A write of the text already shown changes nothing; the DOM
    standard reports it all the same, an engine that compares the text
    first does not.) *)
Definition search_changes (doc : Document) (s : State) : bool :=
  match findLargestMediaElement doc with
  | Some el => negb (same_node el (currentTarget s))
  | None =>
      match status s with
      | Some text => negb (String.eqb text (failure_message s))
      | None => false
      end
  end.

(** Each of the searches run by successive firings of the debounce timer,
    on the pages [docs], changes the page. *)
Fixpoint each_search_changes (s : State) (docs : list Document) : Prop :=
  match docs with
  | [] => True
  | doc :: rest =>
      search_changes doc s = true /\
      each_search_changes (step s (EvDebounceTimer doc)) rest
  end.




(** A page on which [init] found no Drive address: no toolbar, no target,
    no timer, and no read that [initOnDrive] awaits. *)
Definition dormant (s : State) : Prop :=
  phase s = Inactive /\ status s = None /\ currentTarget s = None /\
  debounce_t s = false /\ retries s = 0%nat /\
  Forall (fun p : option Saved * bool => p.2 = false) (loads s).

(** The session on [f1] after the address has changed to [f2], the read for
    [f2] still pending. *)
Definition switching_to_f2 : State := run ready_on_f1 [EvTick url_f2].

(** * Properties *)

Arguments applyTransform : simpl never.
Arguments apply_and_save : simpl never.
Arguments saveState : simpl never.
Arguments loadState : simpl never.
Arguments findLargestMediaElement : simpl never.

(** ** Target Locator *)

Section Sorting.
Context {A : Type} (f : A -> Z).

Local Abbreviation cmp := (by_largest f).

Lemma sort_insert_Permutation x l : Permutation (sort_insert cmp x l) (x :: l).
Proof.
  induction l as [|y l IH]; simpl; [reflexivity|].
  destruct (cmp x y <=? 0); [reflexivity|].
  rewrite IH. apply perm_swap.
Qed.

Lemma sort_Permutation l : Permutation (sort cmp l) l.
Proof.
  induction l as [|x l IH]; simpl; [reflexivity|].
  rewrite sort_insert_Permutation. by constructor.
Qed.

Lemma sort_nil_inv l : sort cmp l = [] -> l = [].
Proof.
  intros H. apply Permutation_nil. rewrite <- H. apply sort_Permutation.
Qed.

Lemma sort_insert_descending x l :
  descending f l -> descending f (sort_insert cmp x l).
Proof.
  induction l as [|y l IH]; simpl; intros Hd; [by split|].
  destruct Hd as [Hy Hd]. unfold by_largest at 1.
  destruct (Z.leb_spec (f y - f x) 0) as [Hle|Hgt]; simpl.
  - split; [|by split]. constructor; [lia|].
    eapply Forall_impl; [exact Hy|]. simpl. intros; lia.
  - split; [|by apply IH].
    rewrite sort_insert_Permutation. constructor; [lia|exact Hy].
Qed.

Lemma sort_descending l : descending f (sort cmp l).
Proof.
  induction l as [|x l IH]; simpl; [done|]. by apply sort_insert_descending.
Qed.

(** The sort is stable: elements of equal [f] keep their relative order. *)
Lemma sort_insert_stable k x l :
  List.filter (fun y => f y =? k) (sort_insert cmp x l)
  = List.filter (fun y => f y =? k) (x :: l).
Proof.
  induction l as [|y l IH]; [done|]. simpl sort_insert. unfold by_largest at 1.
  destruct (Z.leb_spec (f y - f x) 0) as [Hle|Hgt]; [done|].
  simpl in *. rewrite IH.
  destruct (Z.eqb_spec (f x) k), (Z.eqb_spec (f y) k); try done. lia.
Qed.

Lemma sort_stable k l :
  List.filter (fun y => f y =? k) (sort cmp l) = List.filter (fun y => f y =? k) l.
Proof.
  induction l as [|x l IH]; [done|].
  change (sort cmp (x :: l)) with (sort_insert cmp x (sort cmp l)).
  rewrite sort_insert_stable. simpl. by rewrite IH.
Qed.

(** The first element of the sorted list is the earliest element of the
    input whose [f] is maximal: strictly larger than everything before it,
    at least as large as everything after it. *)
Lemma head_sort l :
  l <> [] ->
  exists x pre post,
    head (sort cmp l) = Some x /\ l = (pre ++ x :: post)%list /\
    Forall (fun c => f c < f x) pre /\ Forall (fun c => f c <= f x) post.
Proof.
  induction l as [|a l IH]; [done|]. intros _.
  destruct l as [|b l].
  { exists a, [], []. simpl. repeat split; constructor. }
  destruct IH as (x & pre & post & Hh & Hl & Hpre & Hpost); [done|].
  change (sort cmp (a :: b :: l)) with (sort_insert cmp a (sort cmp (b :: l))).
  destruct (sort cmp (b :: l)) as [|y rest] eqn:Hs; [done|].
  simpl in Hh. injection Hh as ->.
  simpl. unfold by_largest at 1.
  destruct (Z.leb_spec (f x - f a) 0) as [Hle|Hgt]; simpl.
  - exists a, [], (b :: l). repeat split; [constructor|].
    rewrite Hl. apply Forall_app. split.
    + eapply Forall_impl; [exact Hpre|]. simpl. intros; lia.
    + constructor; [lia|]. eapply Forall_impl; [exact Hpost|]. simpl. intros; lia.
  - exists x, (a :: pre), post. rewrite Hl. repeat split; [|exact Hpost].
    constructor; [lia|exact Hpre].
Qed.
End Sorting.

(** The candidates of a pass are the survivors of one selector: the first
    selector of the list that has a survivor. *)
Lemma collectCandidates_spec doc sels :
  (collectCandidates doc sels = [] /\
   forall s, In s sels -> List.filter media_filter (doc s) = []) \/
  (exists pre s post,
      sels = (pre ++ s :: post)%list /\
      (forall s', In s' pre -> List.filter media_filter (doc s') = []) /\
      List.filter media_filter (doc s) <> [] /\
      collectCandidates doc sels = List.filter media_filter (doc s)).
Proof.
  induction sels as [|s sels IH]; simpl.
  { left. split; [done|]. intros ? []. }
  destruct (List.filter media_filter (doc s)) as [|c cs] eqn:Hf.
  - simpl. destruct IH as [[Hn Hall]|(pre & s' & post & -> & Hpre & Hs' & Hc)].
    + left. split; [done|]. intros ? [<-|Hin]; [done|by apply Hall].
    + right. exists (s :: pre), s', post. repeat split; try done.
      intros ? [<-|Hin]; [done|by apply Hpre].
  - right. exists [], s, sels. repeat split; try done. by rewrite Hf.
Qed.

Lemma findLargestMediaElement_unfold doc :
  findLargestMediaElement doc = head (sort compareFn (collectCandidates doc selectors)).
Proof.
  unfold findLargestMediaElement.
  destruct (collectCandidates doc selectors); reflexivity.
Qed.

(** *** C1 *)

(** C1, as stated, fails: on a page whose first matching selector yields
    only a 16x16 badge, filtering removes the badge, the specification's pass
    reports nothing, and the code goes on to the later selectors and returns
    the photo. *)
Lemma C1_falls_back_counterexample :
  first_matching doc_badge_and_photo selectors
    = Some ("[data-testid=" ++ dq ++ "preview-image" ++ dq ++ "] img")%string /\
  List.filter media_filter
    (doc_badge_and_photo ("[data-testid=" ++ dq ++ "preview-image" ++ dq ++ "] img")%string) = [] /\
  spec_search_pass doc_badge_and_photo = None /\
  findLargestMediaElement doc_badge_and_photo = Some photo.
Proof. repeat split; vm_compute; reflexivity. Qed.

(** C1, amended: a search pass consults the selectors in their fixed order
    and commits to the first selector that has at least one element
    surviving the filter.  Selectors before it have no survivor, the
    candidates are exactly the survivors of that selector, and the result is
    one of them.  The pass reports nothing exactly when no selector of the
    list has a survivor. *)
Theorem C1_commits_to_first_surviving_selector (doc : Document) :
  (findLargestMediaElement doc = None /\
   forall s, In s selectors -> List.filter media_filter (doc s) = []) \/
  (exists pre s post el,
      selectors = (pre ++ s :: post)%list /\
      (forall s', In s' pre -> List.filter media_filter (doc s') = []) /\
      collectCandidates doc selectors = List.filter media_filter (doc s) /\
      findLargestMediaElement doc = Some el /\
      In el (doc s) /\ media_filter el = true).
Proof.
  rewrite findLargestMediaElement_unfold.
  destruct (collectCandidates_spec doc selectors)
    as [[Hn Hall]|(pre & s & post & Hsel & Hpre & Hne & Hc)].
  - left. rewrite Hn. by split.
  - right. rewrite Hc.
    destruct (head_sort area (List.filter media_filter (doc s)) Hne)
      as (el & l1 & l2 & Hh & Hl & _ & _).
    exists pre, s, post, el. repeat split; try done.
    + assert (Hin : In el (List.filter media_filter (doc s))).
      { rewrite Hl. apply in_or_app. right. by left. }
      by apply filter_In in Hin as [? _].
    + assert (Hin : In el (List.filter media_filter (doc s))).
      { rewrite Hl. apply in_or_app. right. by left. }
      by apply filter_In in Hin as [_ ?].
Qed.

(** *** C2 *)

Lemma num_or_intrinsic natural video rendered :
  num_or natural (num_or video rendered) = default rendered (intrinsic natural video).
Proof.
  unfold num_or, intrinsic.
  destruct natural as [v|], video as [u|]; simpl;
    repeat (case_match; simpl); reflexivity.
Qed.

(** C2, as stated, fails when the intrinsic size reports 0: the image below
    has intrinsic width and height 0, both below 50, a rendered box of
    640x480, and it passes the filter. *)
Lemma C2_zero_intrinsic_counterexample :
  naturalWidth unloaded = Some 0 /\ naturalHeight unloaded = Some 0 /\
  rect_width unloaded = 640 /\ rect_height unloaded = 480 /\
  media_filter unloaded = true.
Proof. repeat split. Qed.

Lemma media_filter_small_tested el :
  tested_width el < 50 \/ tested_height el < 50 -> media_filter el = false.
Proof.
  unfold tested_width, tested_height, media_filter.
  rewrite <- !num_or_intrinsic. intros H. cbv zeta.
  assert (Hsize :
    (num_or (naturalWidth el) (num_or (videoWidth el) (rect_width el)) <? 50)
    || (num_or (naturalHeight el) (num_or (videoHeight el) (rect_height el)) <? 50)
    = true).
  { apply orb_true_iff. destruct H; [left|right]; by apply Z.ltb_lt. }
  rewrite Hsize. repeat case_match; reflexivity.
Qed.

(** C2, amended: a candidate is rejected when its tested width or height is
    below 50, where the tested size of a dimension is the intrinsic one
    (natural, else media) when that is not 0, and the rendered one when the
    intrinsic one is 0 or missing.  So an element with a non-zero intrinsic
    width or height below 50 is rejected whatever its rendered box, and an
    intrinsic size of 0 falls back to the rendered size. *)
Theorem C2_rejects_small_tested_size (el : Element) (d : Z) :
  intrinsic (naturalWidth el) (videoWidth el) = Some d \/
  intrinsic (naturalHeight el) (videoHeight el) = Some d \/
  (intrinsic (naturalWidth el) (videoWidth el) = None /\ rect_width el = d) \/
  (intrinsic (naturalHeight el) (videoHeight el) = None /\ rect_height el = d) ->
  d < 50 ->
  media_filter el = false.
Proof.
  intros H Hd. apply media_filter_small_tested. unfold tested_width, tested_height.
  destruct H as [H|[H|[[H <-]|[H <-]]]]; rewrite H; simpl; auto.
Qed.

Lemma C2_rejects_small_tested_size_witness :
  30 <= rect_width upscaled /\ 30 <= rect_height upscaled /\
  media_filter upscaled = false.
Proof.
  split; [vm_compute; discriminate|]. split; [vm_compute; discriminate|].
  apply (C2_rejects_small_tested_size upscaled 40); [|reflexivity].
  left. reflexivity.
Defined.

(** *** C3 *)

(** C3: when a pass has candidates, its result is a candidate whose rendered
    area is strictly larger than that of every candidate before it in the
    selector's result order and at least that of every candidate after it:
    the largest area, the earliest one among equals. *)
Theorem C3_largest_area_earliest_on_ties (doc : Document) :
  collectCandidates doc selectors <> [] ->
  exists el pre post,
    findLargestMediaElement doc = Some el /\
    collectCandidates doc selectors = (pre ++ el :: post)%list /\
    Forall (fun c => area c < area el) pre /\
    Forall (fun c => area c <= area el) post.
Proof.
  intros Hne. rewrite findLargestMediaElement_unfold.
  exact (head_sort area _ Hne).
Qed.

Lemma C3_largest_area_earliest_on_ties_witness :
  area square = area banner /\
  exists el pre post,
    findLargestMediaElement doc_tie = Some el /\
    collectCandidates doc_tie selectors = (pre ++ el :: post)%list /\
    Forall (fun c => area c < area el) pre /\
    Forall (fun c => area c <= area el) post.
Proof.
  split; [reflexivity|].
  apply (C3_largest_area_earliest_on_ties doc_tie). vm_compute. discriminate.
Defined.

(** On the page with a 100x100 and a 200x50 image, in that order, the
    100x100 one is selected. *)
Example tie_selects_earlier : findLargestMediaElement doc_tie = Some square.
Proof. vm_compute. reflexivity. Qed.

(** ** Orientation state *)

(** A reported write changes nothing but the debounce timer. *)
Lemma observeWrite_frame s :
  currentFileId (observeWrite s) = currentFileId s /\
  currentTarget (observeWrite s) = currentTarget s /\
  angle (observeWrite s) = angle s /\ flipX (observeWrite s) = flipX s /\
  initAttempts (observeWrite s) = initAttempts s /\
  last (observeWrite s) = last s /\ storage (observeWrite s) = storage s /\
  loads (observeWrite s) = loads s /\ styled (observeWrite s) = styled s /\
  status (observeWrite s) = status s /\ phase (observeWrite s) = phase s /\
  retries (observeWrite s) = retries s /\
  debounce_t (observeWrite s)
    = (match phase s with Watching => true | _ => debounce_t s end).
Proof. unfold observeWrite. by destruct (phase s) eqn:E; simpl; rewrite ?E. Qed.

(** Fields that [applyTransform] and the save leave alone. *)
Lemma applyTransform_fields s :
  angle (applyTransform s) = angle s /\ flipX (applyTransform s) = flipX s /\
  currentFileId (applyTransform s) = currentFileId s /\
  currentTarget (applyTransform s) = currentTarget s /\
  storage (applyTransform s) = storage s /\ loads (applyTransform s) = loads s /\
  status (applyTransform s) = status s /\
  initAttempts (applyTransform s) = initAttempts s /\
  retries (applyTransform s) = retries s /\ phase (applyTransform s) = phase s.
Proof.
  unfold applyTransform. destruct (currentTarget s) eqn:E; [|by rewrite ?E].
  match goal with |- context [observeWrite ?x] =>
    destruct (observeWrite_frame x)
      as (Hf & Ht & Ha & Hx & Hi & Hl & Hs & Hd & Hy & Hst & Hp & Hr & Hb)
  end.
  rewrite Hf, Ht, Ha, Hx, Hi, Hs, Hd, Hst, Hp, Hr. simpl. by rewrite E.
Qed.

Lemma apply_and_save_fields accepted s :
  angle (apply_and_save accepted s) = angle s /\
  flipX (apply_and_save accepted s) = flipX s /\
  currentFileId (apply_and_save accepted s) = currentFileId s /\
  currentTarget (apply_and_save accepted s) = currentTarget s /\
  loads (apply_and_save accepted s) = loads s /\
  status (apply_and_save accepted s) = status s /\
  storage (apply_and_save accepted s)
    = saveState accepted (currentFileId s) (current_record s) (storage s).
Proof.
  destruct (applyTransform_fields s) as (Ha & Hf & Hi & Ht & Hs & Hl & Hst & _).
  unfold apply_and_save, current_record. simpl. by rewrite Ha, Hf, Hi, Ht, Hs, Hl, Hst.
Qed.

Lemma onClick_right accepted s :
  onClick (Some "right") accepted s
  = apply_and_save accepted (set_angle (rotateRight (angle s)) s).
Proof. reflexivity. Qed.

Lemma onClick_left accepted s :
  onClick (Some "left") accepted s
  = apply_and_save accepted (set_angle (rotateLeft (angle s)) s).
Proof. reflexivity. Qed.

Lemma onKeydown_right e accepted s :
  typing e = false -> shiftKey e = true -> toLowerCase (key e) = "r" ->
  onKeydown e accepted s
  = apply_and_save accepted (set_angle (rotateRight (angle s)) s).
Proof. intros Ht Hs Hk. unfold onKeydown. rewrite Ht, Hs, Hk. reflexivity. Qed.

Lemma onKeydown_left e accepted s :
  typing e = false -> shiftKey e = true -> toLowerCase (key e) = "l" ->
  onKeydown e accepted s
  = apply_and_save accepted (set_angle (rotateLeft (angle s)) s).
Proof. intros Ht Hs Hk. unfold onKeydown. rewrite Ht, Hs, Hk. reflexivity. Qed.

Lemma step_rotate_right s ev :
  is_Some (status s) -> rotate_right_event ev ->
  angle (step s ev) = rotateRight (angle s) /\ status (step s ev) = status s.
Proof.
  intros [st Hst] Hev.
  destruct Hev as [accepted|e accepted Ht Hs Hk]; unfold step; rewrite Hst;
    [rewrite onClick_right|rewrite onKeydown_right by done];
    destruct (apply_and_save_fields accepted (set_angle (rotateRight (angle s)) s))
      as (-> & _ & _ & _ & _ & -> & _); done.
Qed.

Lemma step_rotate_left s ev :
  is_Some (status s) -> rotate_left_event ev ->
  angle (step s ev) = rotateLeft (angle s) /\ status (step s ev) = status s.
Proof.
  intros [st Hst] Hev.
  destruct Hev as [accepted|e accepted Ht Hs Hk]; unfold step; rewrite Hst;
    [rewrite onClick_left|rewrite onKeydown_left by done];
    destruct (apply_and_save_fields accepted (set_angle (rotateLeft (angle s)) s))
      as (-> & _ & _ & _ & _ & -> & _); done.
Qed.

Lemma run_rotate_right s evs :
  is_Some (status s) -> Forall rotate_right_event evs ->
  angle (run s evs) = Nat.iter (length evs) rotateRight (angle s) /\
  status (run s evs) = status s.
Proof.
  revert s. induction evs as [|ev evs IH]; intros s Hst Hall; [done|].
  inversion Hall as [|? ? Hev Hevs]; subst.
  destruct (step_rotate_right s ev Hst Hev) as [Ha Hs].
  unfold run in *. simpl foldl.
  destruct (IH (step s ev)) as [Ha' Hs']; [by rewrite Hs|done|].
  rewrite Ha', Hs', Ha, Hs. split; [|done].
  simpl length. by rewrite Nat.iter_succ_r.
Qed.

Lemma run_rotate_left s evs :
  is_Some (status s) -> Forall rotate_left_event evs ->
  angle (run s evs) = Nat.iter (length evs) rotateLeft (angle s) /\
  status (run s evs) = status s.
Proof.
  revert s. induction evs as [|ev evs IH]; intros s Hst Hall; [done|].
  inversion Hall as [|? ? Hev Hevs]; subst.
  destruct (step_rotate_left s ev Hst Hev) as [Ha Hs].
  unfold run in *. simpl foldl.
  destruct (IH (step s ev)) as [Ha' Hs']; [by rewrite Hs|done|].
  rewrite Ha', Hs', Ha, Hs. split; [|done].
  simpl length. by rewrite Nat.iter_succ_r.
Qed.

(** Arithmetic of the two updates. *)
Lemma rem_mod_360 x : (Z.rem x 360) mod 360 = x mod 360.
Proof.
  pose proof (Z.quot_rem' x 360) as H.
  replace (Z.rem x 360) with (x + (- (x ÷ 360)) * 360) by lia.
  apply Z_mod_plus_full.
Qed.

Lemma rotateRight_range a : 0 <= a < 360 -> 0 <= rotateRight a < 360.
Proof. intros H. unfold rotateRight. rewrite Z.rem_mod_nonneg by lia. apply Z.mod_pos_bound. lia. Qed.

Lemma rotateLeft_rotateRight a : 0 <= a < 360 -> rotateLeft (rotateRight a) = a.
Proof.
  intros H. pose proof (rotateRight_range a H) as Hr.
  assert (E : rotateRight a = (a + 90) mod 360).
  { unfold rotateRight. apply Z.rem_mod_nonneg; lia. }
  unfold rotateLeft. rewrite Z.rem_mod_nonneg by lia.
  rewrite E in *. Z.div_mod_to_equations. lia.
Qed.

Lemma iter_rotateRight_range n a :
  0 <= a < 360 -> 0 <= Nat.iter n rotateRight a < 360.
Proof. intros H. induction n; simpl; [done|]. by apply rotateRight_range. Qed.

Lemma iter_left_right n a :
  0 <= a < 360 -> Nat.iter n rotateLeft (Nat.iter n rotateRight a) = a.
Proof.
  intros H. induction n as [|n IH]; [done|].
  rewrite Nat.iter_succ_r. simpl Nat.iter at 2.
  rewrite rotateLeft_rotateRight; [done|]. by apply iter_rotateRight_range.
Qed.

Lemma rotateLeft_mod a b :
  a mod 360 = b mod 360 -> rotateLeft a mod 360 = rotateLeft b mod 360.
Proof.
  intros H. unfold rotateLeft. rewrite !rem_mod_360.
  Z.div_mod_to_equations. lia.
Qed.

Lemma iter_rotateLeft_mod n a b :
  a mod 360 = b mod 360 ->
  Nat.iter n rotateLeft a mod 360 = Nat.iter n rotateLeft b mod 360.
Proof. intros H. induction n; simpl; [done|]. by apply rotateLeft_mod. Qed.

Lemma rotateLeft_rotateRight_mod a : rotateLeft (rotateRight a) mod 360 = a mod 360.
Proof.
  unfold rotateLeft, rotateRight. rewrite rem_mod_360.
  pose proof (rem_mod_360 (a + 90)) as H.
  generalize dependent (Z.rem (a + 90) 360). intros r H.
  Z.div_mod_to_equations. lia.
Qed.

Lemma iter_left_right_mod n a :
  Nat.iter n rotateLeft (Nat.iter n rotateRight a) mod 360 = a mod 360.
Proof.
  induction n as [|n IH]; [done|].
  rewrite Nat.iter_succ_r. simpl Nat.iter at 2.
  rewrite <- IH. apply iter_rotateLeft_mod, rotateLeft_rotateRight_mod.
Qed.

Lemma valid_angle_range a : valid_angle a -> 0 <= a < 360.
Proof. unfold valid_angle. lia. Qed.

Lemma run_app s evs1 evs2 : run s (evs1 ++ evs2)%list = run (run s evs1) evs2.
Proof. apply foldl_app. Qed.

(** *** C5 *)

(** C5: with the toolbar in place, any [n] rotate-right events (clicks or
    Shift+R, in any mix) followed by [n] rotate-left events (clicks or
    Shift+L) bring the angle back to its original value modulo 360, for
    every original angle on which the handlers compute exactly; when the
    original angle is one of 0, 90, 180, 270 the angle is restored exactly,
    and in particular rotate-left undoes one rotate-right.  (An angle beyond
    2^53 can only come from a stored record; there the script's doubles
    round [angle + 90], and the property is not claimed.) *)
Theorem C5_rotate_left_undoes_rotate_right (s : State) (rights lefts : list Event) :
  is_Some (status s) ->
  Forall rotate_right_event rights ->
  Forall rotate_left_event lefts ->
  length rights = length lefts ->
  (exact_angle (angle s) ->
   angle (run s (rights ++ lefts)%list) mod 360 = angle s mod 360) /\
  (valid_angle (angle s) ->
   angle (run s (rights ++ lefts)%list) = angle s /\
   rotateLeft (rotateRight (angle s)) = angle s).
Proof.
  intros Hst Hr Hl Hlen. rewrite run_app.
  destruct (run_rotate_right s rights Hst Hr) as [Ha Hs].
  destruct (run_rotate_left (run s rights) lefts) as [Ha' _]; [by rewrite Hs|done|].
  rewrite Ha', Ha, <- Hlen. split.
  - intros _. apply iter_left_right_mod.
  - intros Hv%valid_angle_range. split.
    + by apply iter_left_right.
    + by apply rotateLeft_rotateRight.
Qed.

Lemma C5_rotate_left_undoes_rotate_right_witness :
  let rights := [EvClick (Some "right") true; EvKeydown (mkKeyEvent true "R" false) false] in
  let lefts := [EvKeydown (mkKeyEvent true "l" false) true; EvClick (Some "left") true] in
  exact_angle (angle ready_on_f1_45) /\
  angle (run ready_on_f1_45 (rights ++ lefts)%list) mod 360 = angle ready_on_f1_45 mod 360 /\
  valid_angle (angle ready_on_f1) /\
  angle (run ready_on_f1 (rights ++ lefts)%list) = angle ready_on_f1 /\
  rotateLeft (rotateRight (angle ready_on_f1)) = angle ready_on_f1.
Proof.
  intros rights lefts.
  assert (He : exact_angle (angle ready_on_f1_45)) by (vm_compute; discriminate).
  assert (Hv : valid_angle (angle ready_on_f1)) by (left; reflexivity).
  destruct (C5_rotate_left_undoes_rotate_right ready_on_f1_45 rights lefts) as [H1 _];
    [vm_compute; eauto|repeat constructor|repeat constructor|reflexivity|].
  destruct (C5_rotate_left_undoes_rotate_right ready_on_f1 rights lefts) as [_ H2];
    [vm_compute; eauto|repeat constructor|repeat constructor|reflexivity|].
  split; [exact He|]. split; [exact (H1 He)|]. split; [exact Hv|]. exact (H2 Hv).
Defined.

(** *** C6 *)

Lemma Inv_same_core s s' : same_core s s' -> Inv s -> Inv s'.
Proof. intros (Ha & Hs & Hl) (? & ? & ?). unfold Inv. by rewrite Ha, Hs, Hl. Qed.

Lemma same_core_refl s : same_core s s.
Proof. by repeat split. Qed.

Lemma same_core_trans s1 s2 s3 : same_core s1 s2 -> same_core s2 s3 -> same_core s1 s3.
Proof. intros (? & ? & ?) (? & ? & ?). repeat split; congruence. Qed.

Lemma same_core_applyTransform s : same_core s (applyTransform s).
Proof. destruct (applyTransform_fields s) as (? & _ & _ & _ & ? & ? & _). by repeat split. Qed.

Lemma same_core_updateToolbarStatus m s : same_core s (updateToolbarStatus m s).
Proof.
  unfold updateToolbarStatus. destruct (status s); [|by repeat split].
  destruct (observeWrite_frame (set_status (Some m) s))
    as (_ & _ & Ha & _ & _ & _ & Hs & Hd & _).
  by repeat split.
Qed.

Lemma same_core_setTarget el s : same_core s (setTarget el s).
Proof.
  destruct el as [e|]; [|apply same_core_refl]. unfold setTarget.
  eapply same_core_trans; [|apply same_core_applyTransform]. by repeat split.
Qed.

Lemma same_core_assignTarget_body doc s : same_core s (assignTarget_body doc s).
Proof.
  unfold assignTarget_body.
  destruct (findLargestMediaElement doc) as [el|].
  - destruct (negb _); [|by repeat split].
    eapply same_core_trans; [|apply same_core_updateToolbarStatus].
    eapply same_core_trans; [|apply same_core_setTarget]. by repeat split.
  - destruct (_ <=? 3).
    + apply same_core_trans with (s2 := set_initAttempts (initAttempts s + 1) s);
        [by repeat split|].
      eapply same_core_trans; [apply same_core_updateToolbarStatus|].
      by repeat split.
    + eapply same_core_trans; [|apply same_core_updateToolbarStatus]. by repeat split.
Qed.

Lemma rotateRight_valid a : valid_angle a -> valid_angle (rotateRight a).
Proof. unfold valid_angle. intros [-> | [-> | [-> | ->]]]; vm_compute; tauto. Qed.

Lemma rotateLeft_valid a : valid_angle a -> valid_angle (rotateLeft a).
Proof. unfold valid_angle. intros [-> | [-> | [-> | ->]]]; vm_compute; tauto. Qed.

Lemma valid_angle_0 : valid_angle 0.
Proof. by left. Qed.

Lemma saveState_valid accepted fileId r items :
  records_valid items -> record_valid r ->
  records_valid (saveState accepted fileId r items).
Proof.
  intros Hi Hr. unfold saveState, storage_set.
  destruct (negb _); [done|]. destruct accepted; [|done].
  intros k r' Hk. apply lookup_insert_Some in Hk as [[_ <-]|[_ Hk]]; [done|].
  by eapply Hi.
Qed.

Lemma loadState_valid fileId items r :
  records_valid items -> loadState fileId items = Some r -> record_valid r.
Proof.
  intros Hi. unfold loadState. destruct (negb _); [done|]. apply Hi.
Qed.

Lemma Inv_set_angle a s : valid_angle a -> Inv s -> Inv (set_angle a s).
Proof. intros Ha (_ & ? & ?). by repeat split. Qed.

Lemma Inv_set_flipX f s : Inv s -> Inv (set_flipX f s).
Proof. intros (? & ? & ?). by repeat split. Qed.

Lemma Inv_apply_and_save accepted s : Inv s -> Inv (apply_and_save accepted s).
Proof.
  intros (Ha & Hs & Hl).
  destruct (apply_and_save_fields accepted s) as (Ea & _ & _ & _ & El & _ & Es).
  unfold Inv. rewrite Ea, El, Es. repeat split; try done.
  apply saveState_valid; [done|]. intros a [= <-]. done.
Qed.

Lemma Inv_onClick action accepted s : Inv s -> Inv (onClick action accepted s).
Proof.
  intros H. destruct action as [action|]; [|done]. unfold onClick.
  apply Inv_apply_and_save.
  assert (H1 : Inv (if String.eqb action "left"
                    then set_angle (Z.rem (angle s - 90 + 360) 360) s else s)).
  { destruct (String.eqb action "left"); [|done].
    apply Inv_set_angle; [|done]. apply rotateLeft_valid, H. }
  revert H1. generalize (if String.eqb action "left"
                    then set_angle (Z.rem (angle s - 90 + 360) 360) s else s).
  intros s1 H1.
  assert (H2 : Inv (if String.eqb action "right"
                    then set_angle (Z.rem (angle s1 + 90) 360) s1 else s1)).
  { destruct (String.eqb action "right"); [|done].
    apply Inv_set_angle; [|done]. apply rotateRight_valid, H1. }
  revert H2. generalize (if String.eqb action "right"
                    then set_angle (Z.rem (angle s1 + 90) 360) s1 else s1).
  intros s2 H2.
  destruct (String.eqb action "flip"), (String.eqb action "reset");
    auto using Inv_set_angle, Inv_set_flipX, valid_angle_0.
Qed.

Lemma Inv_onKeydown e accepted s : Inv s -> Inv (onKeydown e accepted s).
Proof.
  intros H. unfold onKeydown.
  repeat (match goal with |- Inv (if ?c then _ else _) => destruct c end);
    try done; apply Inv_apply_and_save;
    auto using Inv_set_angle, Inv_set_flipX, valid_angle_0.
  - apply Inv_set_angle; [|done]. apply rotateRight_valid, H.
  - apply Inv_set_angle; [|done]. apply rotateLeft_valid, H.
Qed.

Lemma Inv_loadRotationState_call awaited s :
  Inv s -> Inv (loadRotationState_call awaited s).
Proof.
  intros (Ha & Hs & Hl). unfold loadRotationState_call.
  destruct (negb _); [done|]. repeat split; try done. simpl.
  apply Forall_app. split; [done|]. constructor; [|constructor].
  simpl. intros r. by apply loadState_valid.
Qed.

Lemma Inv_loadRotationState_resume saved s :
  (forall r, saved = Some r -> record_valid r) -> Inv s ->
  Inv (loadRotationState_resume saved s).
Proof.
  intros Hsaved H. unfold loadRotationState_resume.
  assert (Hv : valid_angle (default 0 (saved ≫= s_angle))).
  { destruct saved as [r|]; simpl; [|by left].
    destruct (s_angle r) as [a|] eqn:E; simpl; [|by left]. by eapply Hsaved. }
  set (s' := set_flipX _ _).
  assert (Inv s') by (apply Inv_set_flipX, Inv_set_angle; done).
  destruct (currentTarget s'); [|done].
  eapply Inv_same_core; [apply same_core_applyTransform|done].
Qed.

Lemma Inv_initOnDrive href s : Inv s -> Inv (initOnDrive href s).
Proof.
  intros H. unfold initOnDrive.
  set (s1 := ensureToolbar href _).
  assert (H1 : Inv s1).
  { unfold s1, ensureToolbar. destruct H as (? & ? & ?).
    destruct (status _); by repeat split. }
  destruct (negb _).
  - destruct H1 as (? & ? & ?). by repeat split.
  - apply Inv_loadRotationState_call. destruct H1 as (? & ? & ?). by repeat split.
Qed.

Lemma Inv_step s ev : Inv s -> Inv (step s ev).
Proof.
  intros H. destruct ev as [href|href|action acc|e acc|now| | | |doc|]; simpl.
  - destruct (phase s); try done. unfold init. by destruct (isDriveUrl href).
  - destruct (phase s); try done. by apply Inv_initOnDrive.
  - destruct (status s); [|done]. by apply Inv_onClick.
  - destruct (status s); [|done]. by apply Inv_onKeydown.
  - unfold tick. destruct (String.eqb now (last s)); [done|].
    destruct (negb _).
    + eapply Inv_same_core with (s := loadRotationState_call false _);
        [by repeat split|].
      apply Inv_loadRotationState_call. destruct H as (? & ? & ?). by repeat split.
    + destruct H as (? & ? & ?). by repeat split.
  - destruct (loads s) as [|[saved awaited] rest] eqn:El; [done|].
    assert (Hr : Inv (loadRotationState_resume saved (set_loads rest s))).
    { destruct H as (Ha & Hs & Hl). rewrite El in Hl.
      inversion Hl as [|? ? Hsaved Hrest]; subst.
      apply Inv_loadRotationState_resume; [exact Hsaved|]. by repeat split. }
    destruct awaited; [|done].
    eapply Inv_same_core; [|exact Hr]. by repeat split.
  - by destruct (phase s).
  - by destruct (retries s).
  - destruct (debounce_t s); [|done].
    eapply Inv_same_core; [apply same_core_assignTarget_body|done].
  - done.
Qed.

Lemma Inv_run s evs : Inv s -> Inv (run s evs).
Proof.
  revert s. induction evs as [|ev evs IH]; intros s H; [done|].
  apply IH. by apply Inv_step.
Qed.

(** C6: starting from the initial state (angle 0) with a storage whose
    records all carry a valid angle (the empty storage of a fresh install, or
    what earlier page loads of this script left there), after any sequence
    of events (rotations, flips and resets by click or by key, address
    changes and the loads they trigger, locate attempts, teardown) the angle
    is one of 0, 90, 180, 270, and the storage still holds valid records
    only. *)
Theorem C6_angle_is_a_quarter_turn (href : string) (items : gmap string Saved)
    (evs : list Event) :
  records_valid items ->
  valid_angle (angle (run (initial href items) evs)) /\
  records_valid (storage (run (initial href items) evs)).
Proof.
  intros Hi.
  destruct (Inv_run (initial href items) evs) as (Ha & Hs & _); [|done].
  repeat split; [by left|done|constructor].
Qed.

Lemma C6_angle_is_a_quarter_turn_witness :
  let evs := [EvInit url_f1; EvInitTimer url_f1; EvLoadResolved; EvClick (Some "left") true;
              EvKeydown (mkKeyEvent true "F" false) true; EvTick url_f2;
              EvLoadResolved; EvTick url_f1; EvLoadResolved] in
  valid_angle (angle (run (initial url_f1 ∅) evs)) /\
  records_valid (storage (run (initial url_f1 ∅) evs)).
Proof.
  intros evs. apply (C6_angle_is_a_quarter_turn url_f1 ∅ evs).
  intros k r Hk. rewrite lookup_empty in Hk. discriminate.
Defined.

(** ** State Store *)

Lemma truthy_str_ne f : truthy_str f = true <-> f <> EmptyString.
Proof.
  unfold truthy_str. rewrite negb_true_iff. apply String.eqb_neq.
Qed.

Lemma storage_key_inj f g :
  (STORAGE_PREFIX ++ f)%string = (STORAGE_PREFIX ++ g)%string -> f = g.
Proof. intros H. cbv in H. by injection H. Qed.

(** The file identifier the script works with is never the empty string. *)
Lemma fileIdOrGeneral_truthy url : truthy_str (fileIdOrGeneral url) = true.
Proof.
  unfold fileIdOrGeneral. destruct (getFileIdFromUrl url) as [m|]; [|reflexivity].
  destruct (truthy_str m) eqn:E; [exact E|reflexivity].
Qed.

Lemma lookup_saveState accepted fileId state items f :
  f <> EmptyString ->
  saveState accepted fileId state items !! (STORAGE_PREFIX ++ f)%string
  = if accepted && bool_decide (fileId = Some f) then Some state
    else items !! (STORAGE_PREFIX ++ f)%string.
Proof.
  intros Hf. unfold saveState, storage_set.
  destruct fileId as [g|]; simpl.
  - destruct (truthy_str g) eqn:Hg; simpl.
    + destruct accepted; simpl; [|done].
      case_bool_decide as Hgf.
      * injection Hgf as ->. apply lookup_insert_eq.
      * apply lookup_insert_ne. intros Hk%storage_key_inj. congruence.
    + case_bool_decide as Hgf; [|by rewrite andb_false_r].
      injection Hgf as ->. apply truthy_str_ne in Hf. congruence.
  - by rewrite andb_false_r.
Qed.

Lemma loadState_save_all f calls items :
  f <> EmptyString ->
  loadState (Some f) (save_all calls items)
  = match last_saved f calls with
    | Some state => Some state
    | None => items !! (STORAGE_PREFIX ++ f)%string
    end.
Proof.
  intros Hf. unfold loadState. simpl.
  rewrite (proj2 (truthy_str_ne f) Hf). simpl.
  revert items. induction calls as [|[[accepted fileId] state] calls IH]; intros items.
  { reflexivity. }
  unfold save_all in *. simpl. rewrite IH.
  destruct (last_saved f calls); [reflexivity|].
  rewrite lookup_saveState by done. by destruct (accepted && _).
Qed.

(** *** C7 *)

(** C7: [saveState] never fails.  It leaves the storage as it was when the
    file identifier is absent ([null]; the empty string, which the script
    never produces, is treated alike) or when the browser rejects the write,
    and otherwise binds the file's key to the state, replacing what was
    there.  [loadState] yields nothing when the identifier is absent or the
    file's key holds no record, and otherwise, after any history of saves,
    the state of the latest accepted save for that file. *)
Theorem C7_state_store (f : string) (state : Saved) (accepted : bool)
    (calls : list (bool * option string * Saved)) (items : gmap string Saved) :
  f <> EmptyString ->
  saveState accepted None state items = items /\
  saveState accepted (Some EmptyString) state items = items /\
  saveState false (Some f) state items = items /\
  saveState true (Some f) state items = <[(STORAGE_PREFIX ++ f)%string := state]> items /\
  loadState (Some f) (saveState true (Some f) state items) = Some state /\
  loadState None items = None /\
  loadState (Some EmptyString) items = None /\
  (items !! (STORAGE_PREFIX ++ f)%string = None -> loadState (Some f) items = None) /\
  loadState (Some f) (save_all calls items)
  = match last_saved f calls with
    | Some latest => Some latest
    | None => items !! (STORAGE_PREFIX ++ f)%string
    end.
Proof.
  intros Hf. pose proof (proj2 (truthy_str_ne f) Hf) as Ht.
  unfold saveState, loadState, storage_set. simpl. rewrite Ht. simpl.
  repeat split; try done.
  - apply lookup_insert_eq.
  - pose proof (loadState_save_all f calls items Hf) as H.
    unfold loadState in H. simpl in H. rewrite Ht in H. exact H.
Qed.

Lemma C7_state_store_witness :
  let calls := [(true, Some "f1", quarter 90); (true, Some "f2", quarter 180);
                (true, Some "f1", quarter 270); (false, Some "f1", quarter 0);
                (true, None, quarter 180)] in
  saveState true None (quarter 90) ∅ = ∅ /\
  saveState true (Some EmptyString) (quarter 90) ∅ = ∅ /\
  saveState false (Some "f1") (quarter 90) ∅ = ∅ /\
  saveState true (Some "f1") (quarter 90) ∅ = <[(STORAGE_PREFIX ++ "f1")%string := quarter 90]> ∅ /\
  loadState (Some "f1") (saveState true (Some "f1") (quarter 90) ∅) = Some (quarter 90) /\
  loadState None (∅ : gmap string Saved) = None /\
  loadState (Some EmptyString) (∅ : gmap string Saved) = None /\
  ((∅ : gmap string Saved) !! (STORAGE_PREFIX ++ "f1")%string = None ->
   loadState (Some "f1") (∅ : gmap string Saved) = None) /\
  loadState (Some "f1") (save_all calls ∅)
  = match last_saved "f1" calls with
    | Some latest => Some latest
    | None => (∅ : gmap string Saved) !! (STORAGE_PREFIX ++ "f1")%string
    end.
Proof.
  intros calls. apply (C7_state_store "f1" (quarter 90) true calls ∅). discriminate.
Defined.

(** The latest accepted save of the history above is the one with 270. *)
Example last_saved_example :
  loadState (Some "f1")
    (save_all [(true, Some "f1", quarter 90); (true, Some "f2", quarter 180);
               (true, Some "f1", quarter 270); (false, Some "f1", quarter 0);
               (true, None, quarter 180)] ∅)
  = Some (quarter 270).
Proof. vm_compute. reflexivity. Qed.

(** ** Locate cycle *)

Lemma updateToolbarStatus_fields m s :
  currentTarget (updateToolbarStatus m s) = currentTarget s /\
  styled (updateToolbarStatus m s) = styled s /\
  initAttempts (updateToolbarStatus m s) = initAttempts s /\
  retries (updateToolbarStatus m s) = retries s /\
  phase (updateToolbarStatus m s) = phase s /\
  status (updateToolbarStatus m s) = (status s ≫= fun _ => Some m).
Proof.
  unfold updateToolbarStatus. destruct (status s) eqn:E; [|by rewrite E].
  destruct (observeWrite_frame (set_status (Some m) s))
    as (_ & Ht & _ & _ & Hi & _ & _ & _ & Hy & Hst & Hp & Hr & _).
  by rewrite Ht, Hi, Hy, Hst, Hp, Hr.
Qed.

(** A pass that finds nothing: what it changes and what it leaves. *)
Lemma assignTarget_body_not_found doc s :
  findLargestMediaElement doc = None ->
  currentTarget (assignTarget_body doc s) = currentTarget s /\
  styled (assignTarget_body doc s) = styled s /\
  phase (assignTarget_body doc s) = phase s /\
  initAttempts (assignTarget_body doc s) = initAttempts s + 1 /\
  retries (assignTarget_body doc s)
    = (if initAttempts s + 1 <=? 3 then S (retries s) else retries s) /\
  status (assignTarget_body doc s)
    = (status s ≫= fun _ =>
         Some (if initAttempts s + 1 <=? 3
               then ("Searching for media... (" ++ pretty (initAttempts s + 1) ++ ")")%string
               else "No media found - click on image/video")).
Proof.
  intros Hnone. unfold assignTarget_body. rewrite Hnone.
  change (initAttempts (set_initAttempts (initAttempts s + 1) s)) with (initAttempts s + 1).
  destruct (initAttempts s + 1 <=? 3).
  - change (retries (set_initAttempts (initAttempts s + 1) s)) with (retries s).
    match goal with |- context [updateToolbarStatus ?m ?x] =>
      destruct (updateToolbarStatus_fields m x) as (Ht & Hs & Hi & Hr & Hp & Hst)
    end.
    simpl. rewrite Ht, Hs, Hi, Hp, Hst. by repeat split.
  - match goal with |- context [updateToolbarStatus ?m ?x] =>
      destruct (updateToolbarStatus_fields m x) as (Ht & Hs & Hi & Hr & Hp & Hst)
    end.
    rewrite Ht, Hs, Hi, Hr, Hp, Hst. by repeat split.
Qed.

(** On a page without media, after three failed attempts the status still
    counts the search and three retry timers are pending; the fourth failed
    attempt schedules none and shows the terminal message. *)
Example fourth_failed_attempt_is_terminal :
  findLargestMediaElement doc_empty = None /\
  initAttempts after_three_failures = 3 /\
  retries after_three_failures = 3%nat /\
  status after_three_failures = Some "Searching for media... (3)" /\
  initAttempts (run after_three_failures [EvDebounceTimer doc_empty]) = 4 /\
  retries (run after_three_failures [EvDebounceTimer doc_empty]) = 3%nat /\
  status (run after_three_failures [EvDebounceTimer doc_empty])
    = Some "No media found - click on image/video".
Proof. repeat split; vm_compute; reflexivity. Qed.

(** After the terminal message, a mutation still leads to the photo being
    found and bound. *)
Example retrigger_after_terminal :
  currentTarget
    (run after_three_failures
       [EvRetryTimer; EvDebounceTimer doc_empty; EvTrigger; EvDebounceTimer doc_tie])
  = Some square.
Proof. vm_compute. reflexivity. Qed.

(** ** The media target *)

Lemma currentTarget_onClick action accepted s :
  currentTarget (onClick action accepted s) = currentTarget s.
Proof.
  destruct action as [action|]; [|done]. unfold onClick.
  match goal with |- context [apply_and_save ?a ?x] =>
    destruct (apply_and_save_fields a x) as (_ & _ & _ & -> & _)
  end.
  by destruct (String.eqb action "left"), (String.eqb action "right"),
    (String.eqb action "flip"), (String.eqb action "reset").
Qed.

Lemma currentTarget_onKeydown e accepted s :
  currentTarget (onKeydown e accepted s) = currentTarget s.
Proof.
  unfold onKeydown.
  repeat (match goal with |- context [if ?c then _ else _] => destruct c end);
    try done;
    match goal with |- context [apply_and_save ?a ?x] =>
      destruct (apply_and_save_fields a x) as (_ & _ & _ & -> & _)
    end; done.
Qed.

Lemma currentTarget_loadRotationState_call awaited s :
  currentTarget (loadRotationState_call awaited s) = currentTarget s.
Proof. unfold loadRotationState_call. by destruct (negb _). Qed.

Lemma currentTarget_loadRotationState_resume saved s :
  currentTarget (loadRotationState_resume saved s) = currentTarget s.
Proof.
  unfold loadRotationState_resume. set (s' := set_flipX _ _).
  change (currentTarget s) with (currentTarget s').
  destruct (currentTarget s') eqn:E; [|done].
  destruct (applyTransform_fields s') as (_ & _ & _ & -> & _). done.
Qed.

Lemma currentTarget_tick now s : currentTarget (tick now s) = currentTarget s.
Proof.
  unfold tick. destruct (String.eqb now (last s)); [done|].
  destruct (negb _); [|done]. simpl.
  by rewrite currentTarget_loadRotationState_call.
Qed.

Lemma currentTarget_initOnDrive href s :
  currentTarget (initOnDrive href s) = currentTarget s.
Proof.
  unfold initOnDrive, ensureToolbar. simpl.
  destruct (status s); simpl; destruct (negb _); simpl;
    by rewrite ?currentTarget_loadRotationState_call.
Qed.

Lemma currentTarget_assignTarget_body doc s :
  is_Some (currentTarget s) -> is_Some (currentTarget (assignTarget_body doc s)).
Proof.
  intros Hs. unfold assignTarget_body.
  destruct (findLargestMediaElement doc) as [el|] eqn:Hf.
  - destruct (negb _); [|done].
    destruct (updateToolbarStatus_fields "Media found - Ready to rotate!"
                (setTarget (Some el) (set_initAttempts (initAttempts s + 1) s)))
      as (-> & _).
    unfold setTarget.
    match goal with |- context [applyTransform ?x] =>
      destruct (applyTransform_fields x) as (_ & _ & _ & -> & _)
    end. by eexists.
  - pose proof (assignTarget_body_not_found doc s Hf) as (Ht & _).
    unfold assignTarget_body in Ht. rewrite Hf in Ht. by rewrite Ht.
Qed.

Lemma step_keeps_target s ev :
  ev <> EvTeardown -> is_Some (currentTarget s) -> is_Some (currentTarget (step s ev)).
Proof.
  intros Hev Hs. destruct ev as [href|href|action acc|e acc|now| | | |doc|]; unfold step.
  - destruct (phase s); try done. unfold init. by destruct (isDriveUrl href).
  - destruct (phase s); try done. by rewrite currentTarget_initOnDrive.
  - destruct (status s); [|done]. by rewrite currentTarget_onClick.
  - destruct (status s); [|done]. by rewrite currentTarget_onKeydown.
  - by rewrite currentTarget_tick.
  - destruct (loads s) as [|[saved awaited] rest]; [done|].
    pose proof (currentTarget_loadRotationState_resume saved (set_loads rest s)) as H.
    change (currentTarget (set_loads rest s)) with (currentTarget s) in H.
    destruct awaited; unfold startWatching, assignTarget; simpl; by rewrite H.
  - by destruct (phase s).
  - by destruct (retries s).
  - destruct (debounce_t s); [|done]. by apply currentTarget_assignTarget_body.
  - done.
Qed.

(** *** C9 *)

(** C9: once a target is set, [setTarget] with no element changes nothing;
    a locate pass that finds nothing leaves the target and everything
    written on elements as they were; no event other than teardown leaves
    the script without a target; teardown does. *)
Theorem C9_target_cleared_only_by_teardown (s : State) (ev : Event) (doc : Document) :
  is_Some (currentTarget s) ->
  setTarget None s = s /\
  (findLargestMediaElement doc = None ->
   currentTarget (assignTarget_body doc s) = currentTarget s /\
   styled (assignTarget_body doc s) = styled s) /\
  (ev <> EvTeardown -> is_Some (currentTarget (step s ev))) /\
  currentTarget (step s EvTeardown) = None.
Proof.
  intros Hs. repeat split; try done.
  - by apply assignTarget_body_not_found.
  - by apply assignTarget_body_not_found.
  - intros Hev. by apply step_keeps_target.
Qed.

Lemma C9_target_cleared_only_by_teardown_witness :
  currentTarget bound_on_f1 = Some square /\
  setTarget None bound_on_f1 = bound_on_f1 /\
  (findLargestMediaElement doc_empty = None ->
   currentTarget (assignTarget_body doc_empty bound_on_f1) = currentTarget bound_on_f1 /\
   styled (assignTarget_body doc_empty bound_on_f1) = styled bound_on_f1) /\
  (EvDebounceTimer doc_empty <> EvTeardown ->
   is_Some (currentTarget (step bound_on_f1 (EvDebounceTimer doc_empty)))) /\
  currentTarget (step bound_on_f1 EvTeardown) = None.
Proof.
  split; [vm_compute; reflexivity|].
  apply (C9_target_cleared_only_by_teardown bound_on_f1 (EvDebounceTimer doc_empty) doc_empty).
  vm_compute. eauto.
Defined.

(** *** C10 *)

Lemma loadRotationState_resume_fields saved s :
  angle (loadRotationState_resume saved s) = default 0 (saved ≫= s_angle) /\
  flipX (loadRotationState_resume saved s) = default false (saved ≫= s_flipX).
Proof.
  unfold loadRotationState_resume. set (s' := set_flipX _ _).
  destruct (currentTarget s'); [|done].
  destruct (applyTransform_fields s') as (-> & -> & _). done.
Qed.

Lemma step_load_resolved saved awaited s :
  loads s = [] ->
  angle (step (set_loads [(saved, awaited)] s) EvLoadResolved)
    = default 0 (saved ≫= s_angle) /\
  flipX (step (set_loads [(saved, awaited)] s) EvLoadResolved)
    = default false (saved ≫= s_flipX).
Proof.
  intros _. unfold step. simpl loads. cbv iota beta.
  destruct (loadRotationState_resume_fields saved
              (set_loads [] (set_loads [(saved, awaited)] s))) as [Ha Hf].
  destruct awaited; unfold startWatching, assignTarget; simpl; by rewrite Ha, Hf.
Qed.

(** C10: with a file context and no older read pending, a load copies the
    stored angle and flip as they are, whatever their values, and replaces a
    field that is null or missing by 0, respectively false, independently of
    the other field; without a stored record both defaults apply.  Without a
    file context the load returns at once and leaves the state, angle and
    flip included, as it was. *)
Theorem C10_load_copies_fields_verbatim (s : State) (awaited : bool) :
  (truthy_id (currentFileId s) = false -> loadRotationState_call awaited s = s) /\
  (truthy_id (currentFileId s) = true -> loads s = [] ->
   forall saved, loadState (currentFileId s) (storage s) = saved ->
     angle (step (loadRotationState_call awaited s) EvLoadResolved)
       = default 0 (saved ≫= s_angle) /\
     flipX (step (loadRotationState_call awaited s) EvLoadResolved)
       = default false (saved ≫= s_flipX)) /\
  (forall a f, angle (loadRotationState_resume (Some (mkSaved (Some a) f)) s) = a) /\
  (forall a f, flipX (loadRotationState_resume (Some (mkSaved a (Some f))) s) = f) /\
  (forall f, angle (loadRotationState_resume (Some (mkSaved None f)) s) = 0) /\
  (forall a, flipX (loadRotationState_resume (Some (mkSaved a None)) s) = false) /\
  angle (loadRotationState_resume None s) = 0 /\
  flipX (loadRotationState_resume None s) = false.
Proof.
  split; [|split].
  - intros Hf. unfold loadRotationState_call. by rewrite Hf.
  - intros Hf Hl saved Hsaved. unfold loadRotationState_call.
    rewrite Hf, Hl, Hsaved. simpl negb. cbv iota. simpl app.
    by apply step_load_resolved.
  - repeat split; intros;
      match goal with |- context [loadRotationState_resume ?x ?y] =>
        destruct (loadRotationState_resume_fields x y) as [Ha Hf]
      end; rewrite ?Ha, ?Hf; done.
Qed.

Lemma C10_load_copies_fields_verbatim_witness :
  angle (step (loadRotationState_call false ready_on_f1_45) EvLoadResolved) = 45 /\
  flipX (step (loadRotationState_call false ready_on_f1_45) EvLoadResolved) = false /\
  loadRotationState_call false (set_angle 90 (initial url_f1 items_45))
  = set_angle 90 (initial url_f1 items_45).
Proof.
  destruct (C10_load_copies_fields_verbatim ready_on_f1_45 false) as (_ & Hload & _).
  destruct (Hload eq_refl eq_refl (Some (mkSaved (Some 45) None))) as [Ha Hf].
  { vm_compute. reflexivity. }
  destruct (C10_load_copies_fields_verbatim (set_angle 90 (initial url_f1 items_45)) false)
    as (Hearly & _).
  split; [exact Ha|]. split; [exact Hf|]. apply Hearly. reflexivity.
Defined.

(** ** End to end *)

Lemma loadState_lookup f items :
  f <> EmptyString -> loadState (Some f) items = items !! (STORAGE_PREFIX ++ f)%string.
Proof.
  intros Hf. unfold loadState. simpl. by rewrite (proj2 (truthy_str_ne f) Hf).
Qed.

Lemma loadState_saveState_same f state items :
  f <> EmptyString ->
  loadState (Some f) (saveState true (Some f) state items) = Some state.
Proof.
  intros Hf. rewrite loadState_lookup, lookup_saveState by done.
  simpl. by rewrite bool_decide_eq_true_2.
Qed.

Lemma loadState_saveState_other f g accepted state items :
  g <> EmptyString -> f <> g ->
  loadState (Some g) (saveState accepted (Some f) state items)
  = loadState (Some g) items.
Proof.
  intros Hg Hfg. rewrite !loadState_lookup, lookup_saveState by done.
  rewrite bool_decide_eq_false_2 by congruence. by rewrite andb_false_r.
Qed.

(** [initOnDrive] on the page of [f1], with no record for [f1] in the
    storage, ends in the default state on [f1]. *)
Lemma session_start_f1 (items : gmap string Saved) :
  loadState (Some "f1") items = None ->
  run (initial url_f1 items) [EvInit url_f1; EvInitTimer url_f1; EvLoadResolved]
  = mkState (Some "f1") None 0 false 0 url_f1 items [] ∅
      (Some "Looking for media...") Watching true 0.
Proof.
  intros H1. lazy -[loadState saveState]. rewrite H1. reflexivity.
Qed.

(** *** C4 *)

(** C4: on the page of file [f1], with no record stored for [f1] or [f2],
    the session starts in the default state; three rotate-right actions
    (clicks or Shift+R) take the angle to 90, 180 and 270, each value being
    stored for [f1] at once; the address change to [f2] and its load give
    angle 0 and no flip; the address change back to [f1] and its load give
    angle 270 and no flip. *)
Theorem C4_end_to_end (items : gmap string Saved) (r1 r2 r3 : Event) :
  loadState (Some "f1") items = None ->
  loadState (Some "f2") items = None ->
  In r1 rotate_right_actions -> In r2 rotate_right_actions -> In r3 rotate_right_actions ->
  let s0 := run (initial url_f1 items) [EvInit url_f1; EvInitTimer url_f1; EvLoadResolved] in
  let s1 := step s0 r1 in
  let s2 := step s1 r2 in
  let s3 := step s2 r3 in
  let s4 := run s3 [EvTick url_f2; EvLoadResolved] in
  let s5 := run s4 [EvTick url_f1; EvLoadResolved] in
  (currentFileId s0 = Some "f1" /\ angle s0 = 0 /\ flipX s0 = false) /\
  (angle s1 = 90 /\ loadState (Some "f1") (storage s1) = Some (mkSaved (Some 90) (Some false))) /\
  (angle s2 = 180 /\ loadState (Some "f1") (storage s2) = Some (mkSaved (Some 180) (Some false))) /\
  (angle s3 = 270 /\ loadState (Some "f1") (storage s3) = Some (mkSaved (Some 270) (Some false))) /\
  (currentFileId s4 = Some "f2" /\ angle s4 = 0 /\ flipX s4 = false) /\
  (currentFileId s5 = Some "f1" /\ angle s5 = 270 /\ flipX s5 = false).
Proof.
  intros H1 H2 Hr1 Hr2 Hr3. cbv zeta. rewrite (session_start_f1 items H1).
  unfold rotate_right_actions in *. simpl in Hr1, Hr2, Hr3.
  destruct Hr1 as [<-|[<-|[]]], Hr2 as [<-|[<-|[]]], Hr3 as [<-|[<-|[]]];
    lazy -[loadState saveState];
    rewrite ?loadState_saveState_same by discriminate;
    rewrite ?loadState_saveState_other by discriminate;
    rewrite ?H2; repeat split; reflexivity.
Qed.

Lemma C4_end_to_end_witness :
  let r := EvClick (Some "right") true in
  let k := EvKeydown (mkKeyEvent true "R" false) true in
  let s3 := run (initial url_f1 ∅) [EvInit url_f1; EvInitTimer url_f1; EvLoadResolved; r; k; r] in
  angle s3 = 270 /\
  angle (run s3 [EvTick url_f2; EvLoadResolved]) = 0 /\
  flipX (run s3 [EvTick url_f2; EvLoadResolved]) = false /\
  angle (run s3 [EvTick url_f2; EvLoadResolved; EvTick url_f1; EvLoadResolved]) = 270 /\
  flipX (run s3 [EvTick url_f2; EvLoadResolved; EvTick url_f1; EvLoadResolved]) = false.
Proof.
  intros r k s3.
  destruct (C4_end_to_end ∅ r k r) as (_ & _ & _ & (H3 & _) & (_ & H4 & F4) & (_ & H5 & F5)).
  - reflexivity.
  - reflexivity.
  - left. reflexivity.
  - right. left. reflexivity.
  - left. reflexivity.
  - repeat split; assumption.
Defined.

(** * Further properties *)

(** ** Addresses *)

Lemma prefix_app p t : String.prefix p (p ++ t)%string = true.
Proof.
  induction p as [|a p IH]; simpl; [by destruct t|].
  destruct (ascii_dec a a); [exact IH|done].
Qed.

Lemma prefix_split p s : String.prefix p s = true -> exists t, s = (p ++ t)%string.
Proof.
  revert s. induction p as [|a p IH]; intros s H.
  { exists s. reflexivity. }
  destruct s as [|b s]; simpl in H; [done|].
  destruct (ascii_dec a b) as [<-|]; [|done].
  destruct (IH s H) as [t ->]. by exists t.
Qed.

Lemma includes_cons needle c hay :
  includes needle (String c hay)
  = String.prefix needle (String c hay) || includes needle hay.
Proof. reflexivity. Qed.

Lemma includes_nil needle :
  includes needle EmptyString = String.prefix needle EmptyString.
Proof. unfold includes. apply orb_false_r. Qed.

Lemma includes_spec needle hay :
  includes needle hay = true <->
  exists pre post, hay = (pre ++ needle ++ post)%string.
Proof.
  split.
  - induction hay as [|c hay IH].
    + rewrite includes_nil. intros [t Ht]%prefix_split.
      exists EmptyString, t. exact Ht.
    + rewrite includes_cons. intros [H|H]%orb_true_iff.
      * apply prefix_split in H as [t Ht]. exists EmptyString, t. exact Ht.
      * destruct (IH H) as (pre & post & ->). by exists (String c pre), post.
  - intros (pre & post & ->). induction pre as [|c pre IH].
    + change (EmptyString ++ needle ++ post)%string with (needle ++ post)%string.
      destruct (needle ++ post)%string eqn:E.
      * rewrite includes_nil, <- E. apply prefix_app.
      * rewrite includes_cons, <- E, prefix_app. reflexivity.
    + change (String c pre ++ needle ++ post)%string
        with (String c (pre ++ needle ++ post)). 
      rewrite includes_cons, IH. apply orb_true_r.
Qed.

Lemma until_slash_split s :
  exists post, s = (until_slash s ++ post)%string /\
               (post = EmptyString \/ exists t, post = String "/" t).
Proof.
  induction s as [|c s (post & Hs & Hpost)]; simpl.
  { exists EmptyString. by split; [|left]. }
  destruct (Ascii.eqb_spec c "/") as [->|Hc].
  - exists (String "/" s). split; [done|]. right. by exists s.
  - exists post. split; [|done]. rewrite Hs at 1. reflexivity.
Qed.

Lemma until_slash_no_slash s : ~ In "/"%char (list_ascii_of_string (until_slash s)).
Proof.
  induction s as [|c s IH]; simpl; [tauto|].
  destruct (Ascii.eqb_spec c "/") as [->|Hc]; simpl; [tauto|].
  intros [E|H]; [by apply Hc|by apply IH].
Qed.

Lemma until_slash_app_slash m t :
  ~ In "/"%char (list_ascii_of_string m) -> until_slash (m ++ String "/" t) = m.
Proof.
  induction m as [|c m IH]; simpl; intros H; [done|].
  destruct (Ascii.eqb_spec c "/") as [->|Hc]; [tauto|].
  rewrite IH; [done|tauto].
Qed.

Lemma getFileIdFromUrl_cons c rest :
  getFileIdFromUrl (String c rest)
  = if String.prefix "/file/d/" (String c rest)
       && truthy_str (until_slash (drop_chars 8 (String c rest)))
    then Some (until_slash (drop_chars 8 (String c rest)))
    else getFileIdFromUrl rest.
Proof. reflexivity. Qed.

(** X1: an identifier extracted from an address is the segment that follows
    the first [/file/d/] with a segment behind it: it is not empty, holds no
    slash, and ends at the next slash or at the end of the address. *)
Theorem X1_file_id_is_the_path_segment (url m : string) :
  getFileIdFromUrl url = Some m ->
  m <> EmptyString /\
  ~ In "/"%char (list_ascii_of_string m) /\
  exists pre post,
    url = (pre ++ "/file/d/" ++ m ++ post)%string /\
    (post = EmptyString \/ exists t, post = String "/" t).
Proof.
  revert m. induction url as [|c url IH]; intros m; [done|].
  rewrite getFileIdFromUrl_cons.
  assert (Hrest : getFileIdFromUrl url = Some m ->
    m <> EmptyString /\ ~ In "/"%char (list_ascii_of_string m) /\
    exists pre post,
      String c url = (pre ++ "/file/d/" ++ m ++ post)%string /\
      (post = EmptyString \/ exists t, post = String "/" t)).
  { intros H. destruct (IH m H) as (? & ? & pre & post & -> & ?).
    repeat split; try done. by exists (String c pre), post. }
  remember (until_slash (drop_chars 8 (String c url))) as cap eqn:Hcap.
  destruct (String.prefix "/file/d/" (String c url)) eqn:Hp; [|exact Hrest].
  destruct (truthy_str cap) eqn:Ht; [|exact Hrest]. cbn [andb].
  clear Hrest IH. intros [= <-]. split; [by apply truthy_str_ne|].
  apply prefix_split in Hp as [t Hp]. rewrite Hp in *.
  change (drop_chars 8 ("/file/d/" ++ t)%string) with t in Hcap. subst cap.
  split; [apply until_slash_no_slash|].
  destruct (until_slash_split t) as (post & Hs & Hpost).
  exists EmptyString, post. split; [|done]. rewrite Hs at 1. reflexivity.
Qed.

Lemma X1_file_id_is_the_path_segment_witness :
  "abc" <> EmptyString /\
  ~ In "/"%char (list_ascii_of_string "abc") /\
  exists pre post,
    "https://drive.google.com/file/d/abc/view?usp=sharing"
      = (pre ++ "/file/d/" ++ "abc" ++ post)%string /\
    (post = EmptyString \/ exists t, post = String "/" t).
Proof.
  apply (X1_file_id_is_the_path_segment
           "https://drive.google.com/file/d/abc/view?usp=sharing" "abc").
  vm_compute. reflexivity.
Defined.

Lemma until_slash_id m :
  ~ In "/"%char (list_ascii_of_string m) -> until_slash m = m.
Proof.
  induction m as [|c m IH]; simpl; intros H; [done|].
  destruct (Ascii.eqb_spec c "/") as [->|Hc]; [tauto|].
  rewrite IH; [done|tauto].
Qed.

Lemma append_empty_r m : (m ++ EmptyString)%string = m.
Proof.
  induction m as [|c m IH]; [done|].
  change (String c m ++ EmptyString)%string with (String c (m ++ EmptyString)).
  by rewrite IH.
Qed.

Lemma prefix_file_d_false c pre rest :
  String.prefix "/f" (String c pre) = false ->
  String.prefix "/file/d/" (String c (pre ++ String "/" rest)) = false.
Proof.
  cbn [String.prefix]. destruct (ascii_dec "/" c) as [_|]; [|done].
  destruct pre as [|c2 pre]; [done|].
  change (String c2 pre ++ String "/" rest)%string
    with (String c2 (pre ++ String "/" rest)).
  cbn [String.prefix]. destruct (ascii_dec "f" c2); [|done].
  by destruct pre.
Qed.

Lemma getFileIdFromUrl_built pre tail :
  includes "/f" pre = false ->
  truthy_str (until_slash tail) = true ->
  getFileIdFromUrl (pre ++ "/file/d/" ++ tail) = Some (until_slash tail).
Proof.
  intros Hpre Ht. induction pre as [|c pre IH].
  - change (EmptyString ++ "/file/d/" ++ tail)%string
      with (String "/" ("file/d/" ++ tail)).
    rewrite getFileIdFromUrl_cons.
    change (drop_chars 8 (String "/" ("file/d/" ++ tail))) with tail.
    change (String "/" ("file/d/" ++ tail)) with ("/file/d/" ++ tail)%string.
    by rewrite prefix_app, Ht.
  - rewrite includes_cons in Hpre. apply orb_false_iff in Hpre as [Hp Hi].
    change (String c pre ++ "/file/d/" ++ tail)%string
      with (String c (pre ++ String "/" ("file/d/" ++ tail))).
    rewrite getFileIdFromUrl_cons, (prefix_file_d_false c pre _ Hp).
    cbn [andb]. by apply IH.
Qed.

(** X2: the converse of X1 for addresses whose part before [/file/d/] holds
    no [/f]: a segment that is not empty and holds no slash, followed by the
    end of the address or by a slash, is the identifier that is extracted. *)
Theorem X2_file_id_round_trip (pre m post : string) :
  includes "/f" pre = false ->
  m <> EmptyString ->
  ~ In "/"%char (list_ascii_of_string m) ->
  post = EmptyString \/ (exists t, post = String "/" t) ->
  getFileIdFromUrl (pre ++ "/file/d/" ++ m ++ post) = Some m /\
  fileIdOrGeneral (pre ++ "/file/d/" ++ m ++ post) = m.
Proof.
  intros Hpre Hm Hslash Hpost.
  assert (Hu : until_slash (m ++ post) = m).
  { destruct Hpost as [->|[t ->]].
    - rewrite append_empty_r. by apply until_slash_id.
    - by apply until_slash_app_slash. }
  assert (Hg : getFileIdFromUrl (pre ++ "/file/d/" ++ m ++ post) = Some m).
  { replace (Some m) with (Some (until_slash (m ++ post))) by (by rewrite Hu).
    apply getFileIdFromUrl_built; [done|]. rewrite Hu. by apply truthy_str_ne. }
  split; [exact Hg|]. unfold fileIdOrGeneral. rewrite Hg.
  by rewrite (proj2 (truthy_str_ne m) Hm).
Qed.

Lemma X2_file_id_round_trip_witness :
  getFileIdFromUrl "https://drive.google.com/file/d/1AbC_d-9/preview" = Some "1AbC_d-9" /\
  fileIdOrGeneral "https://drive.google.com/file/d/1AbC_d-9/preview" = "1AbC_d-9".
Proof.
  apply (X2_file_id_round_trip "https://drive.google.com" "1AbC_d-9" "/preview").
  - reflexivity.
  - discriminate.
  - vm_compute. intros H. repeat (destruct H as [H|H]; [discriminate H|]). exact H.
  - right. by exists "preview".
Defined.

Lemma isDriveFilePreviewUrl_cons c rest :
  isDriveFilePreviewUrl (String c rest)
  = (String.prefix "https://drive.google.com/file/d/" (String c rest)
     && truthy_str (until_slash (drop_chars 32 (String c rest)))
     && (String.prefix "/view"
           (drop_chars (String.length (until_slash (drop_chars 32 (String c rest))))
              (drop_chars 32 (String c rest)))
         || String.prefix "/preview"
              (drop_chars (String.length (until_slash (drop_chars 32 (String c rest))))
                 (drop_chars 32 (String c rest)))))
    || isDriveFilePreviewUrl rest.
Proof. reflexivity. Qed.

Lemma getFileIdFromUrl_truthy url m :
  getFileIdFromUrl url = Some m -> truthy_str m = true.
Proof.
  induction url as [|c url IH]; [done|]. rewrite getFileIdFromUrl_cons.
  remember (until_slash (drop_chars 8 (String c url))) as cap.
  destruct (String.prefix _ _); [|exact IH].
  destruct (truthy_str cap) eqn:Ht; [|exact IH]. cbn [andb]. by intros [= <-].
Qed.

Lemma getFileIdFromUrl_cons_is_Some c rest :
  is_Some (getFileIdFromUrl rest) -> is_Some (getFileIdFromUrl (String c rest)).
Proof.
  intros H. rewrite getFileIdFromUrl_cons. by destruct (_ && _).
Qed.

(** X3: on an address that [isDriveFilePreviewUrl] accepts, a file
    identifier is always extracted (the file context is that identifier, not
    the fallback for pages without one), and [isDriveUrl] holds as well. *)
Theorem X3_preview_address_has_file_id (url : string) :
  isDriveFilePreviewUrl url = true ->
  (exists m, getFileIdFromUrl url = Some m /\ fileIdOrGeneral url = m) /\
  isDriveUrl url = true.
Proof.
  intros H.
  assert (Hid : is_Some (getFileIdFromUrl url) /\ isDriveUrl url = true).
  { induction url as [|c url IH]; [done|].
    rewrite isDriveFilePreviewUrl_cons in H.
    apply orb_true_iff in H as [H|H].
    - apply andb_true_iff in H as [H _]. apply andb_true_iff in H as [Hp Ht].
      apply prefix_split in Hp as [t Hp]. rewrite Hp in *.
      change (drop_chars 32 ("https://drive.google.com/file/d/" ++ t)%string)
        with t in Ht.
      split.
      + change ("https://drive.google.com/file/d/" ++ t)%string
          with ("https://drive.google.com" ++ "/file/d/" ++ t)%string.
        rewrite getFileIdFromUrl_built; [by eexists|reflexivity|exact Ht].
      + apply includes_spec. by exists "https://", ("/file/d/" ++ t)%string.
    - destruct (IH H) as [Hs Hd]. split.
      + by apply getFileIdFromUrl_cons_is_Some.
      + unfold isDriveUrl in *. rewrite includes_cons, Hd. apply orb_true_r. }
  destruct Hid as [[m Hm] Hd]. split; [|exact Hd].
  exists m. split; [exact Hm|]. unfold fileIdOrGeneral. rewrite Hm.
  by rewrite (getFileIdFromUrl_truthy url m Hm).
Qed.

Lemma X3_preview_address_has_file_id_witness :
  (exists m, getFileIdFromUrl "https://drive.google.com/file/d/f1/view" = Some m /\
             fileIdOrGeneral "https://drive.google.com/file/d/f1/view" = m) /\
  isDriveUrl "https://drive.google.com/file/d/f1/view" = true.
Proof.
  apply (X3_preview_address_has_file_id "https://drive.google.com/file/d/f1/view").
  vm_compute. reflexivity.
Defined.

(** X4: [isDriveUrl] holds exactly for the addresses that contain
    [drive.google.com] somewhere, in the host or anywhere else. *)
Theorem X4_isDriveUrl_is_containment (url : string) :
  isDriveUrl url = true <->
  exists pre post, url = (pre ++ "drive.google.com" ++ post)%string.
Proof. apply includes_spec. Qed.


(** ** Frames: what each function leaves alone *)

Lemma applyTransform_frame s :
  currentFileId (applyTransform s) = currentFileId s /\
  currentTarget (applyTransform s) = currentTarget s /\
  angle (applyTransform s) = angle s /\ flipX (applyTransform s) = flipX s /\
  initAttempts (applyTransform s) = initAttempts s /\
  last (applyTransform s) = last s /\ storage (applyTransform s) = storage s /\
  loads (applyTransform s) = loads s /\ status (applyTransform s) = status s /\
  phase (applyTransform s) = phase s /\
  debounce_t (applyTransform s)
    = (match currentTarget s, phase s with
       | Some _, Watching => true
       | _, _ => debounce_t s
       end) /\
  retries (applyTransform s) = retries s.
Proof.
  unfold applyTransform. destruct (currentTarget s) eqn:E; [|by rewrite ?E].
  match goal with |- context [observeWrite ?x] =>
    destruct (observeWrite_frame x)
      as (Hf & Ht & Ha & Hx & Hi & Hl & Hs & Hd & Hy & Hst & Hp & Hr & Hb)
  end.
  rewrite Hf, Ht, Ha, Hx, Hi, Hl, Hs, Hd, Hst, Hp, Hr, Hb. simpl. by rewrite E.
Qed.

Lemma applyTransform_styled s :
  styled (applyTransform s)
  = match currentTarget s with
    | None => styled s
    | Some el =>
        <[node el := mkApplied "gdr-rot-target" (transform_string (angle s) (flipX s))
                       (if String.eqb (tagName el) "VIDEO" then Some "contain"
                        else (styled s !! node el) ≫= a_objectFit)
                       "100%" "100%"]> (styled s)
    end.
Proof.
  unfold applyTransform. destruct (currentTarget s); [|done].
  match goal with |- context [observeWrite ?x] =>
    by destruct (observeWrite_frame x) as (_ & _ & _ & _ & _ & _ & _ & _ & -> & _)
  end.
Qed.

Lemma apply_and_save_frame accepted s :
  currentFileId (apply_and_save accepted s) = currentFileId s /\
  currentTarget (apply_and_save accepted s) = currentTarget s /\
  angle (apply_and_save accepted s) = angle s /\
  flipX (apply_and_save accepted s) = flipX s /\
  initAttempts (apply_and_save accepted s) = initAttempts s /\
  last (apply_and_save accepted s) = last s /\
  loads (apply_and_save accepted s) = loads s /\
  status (apply_and_save accepted s) = status s /\
  phase (apply_and_save accepted s) = phase s /\
  debounce_t (apply_and_save accepted s) = debounce_t (applyTransform s) /\
  retries (apply_and_save accepted s) = retries s /\
  styled (apply_and_save accepted s) = styled (applyTransform s) /\
  storage (apply_and_save accepted s)
    = saveState accepted (currentFileId s) (current_record s) (storage s).
Proof.
  destruct (applyTransform_frame s)
    as (Hf & Ht & Ha & Hx & Hi & Hl & Hs & Hd & Hst & Hp & Hb & Hr).
  unfold apply_and_save, current_record. simpl.
  by rewrite Hf, Ht, Ha, Hx, Hi, Hl, Hs, Hd, Hst, Hp, Hr.
Qed.

(** The two handlers either leave the state or end in [apply_and_save] of a
    state that differs from it in the angle and the flip only. *)
Lemma onClick_shape action accepted s :
  exists a f,
    onClick (Some action) accepted s = apply_and_save accepted (set_flipX f (set_angle a s)).
Proof.
  destruct s. unfold onClick.
  match goal with |- exists a f, apply_and_save _ ?X = _ =>
    exists (angle X), (flipX X)
  end.
  by destruct (String.eqb action "left"), (String.eqb action "right"),
    (String.eqb action "flip"), (String.eqb action "reset").
Qed.

Lemma onKeydown_shape e accepted s :
  onKeydown e accepted s = s \/
  exists a f,
    onKeydown e accepted s = apply_and_save accepted (set_flipX f (set_angle a s)).
Proof.
  unfold onKeydown.
  repeat (match goal with |- context [if ?c then _ else _] => destruct c end);
    try (by left); right;
    match goal with |- exists a f, apply_and_save _ ?X = _ =>
      exists (angle X), (flipX X)
    end; reflexivity.
Qed.

Lemma loadRotationState_resume_frame saved s :
  currentFileId (loadRotationState_resume saved s) = currentFileId s /\
  currentTarget (loadRotationState_resume saved s) = currentTarget s /\
  initAttempts (loadRotationState_resume saved s) = initAttempts s /\
  last (loadRotationState_resume saved s) = last s /\
  storage (loadRotationState_resume saved s) = storage s /\
  loads (loadRotationState_resume saved s) = loads s /\
  status (loadRotationState_resume saved s) = status s /\
  phase (loadRotationState_resume saved s) = phase s /\
  debounce_t (loadRotationState_resume saved s)
    = (match currentTarget s, phase s with
       | Some _, Watching => true
       | _, _ => debounce_t s
       end) /\
  retries (loadRotationState_resume saved s) = retries s.
Proof.
  unfold loadRotationState_resume. set (s' := set_flipX _ _).
  change (currentTarget s) with (currentTarget s').
  change (phase s) with (phase s'). change (debounce_t s) with (debounce_t s').
  destruct (currentTarget s') eqn:E; [|by repeat split].
  destruct (applyTransform_frame s')
    as (Hf & Ht & Ha & Hx & Hi & Hl & Hs & Hd & Hst & Hp & Hb & Hr).
  rewrite Hf, Ht, Hi, Hl, Hs, Hd, Hst, Hp, Hb, Hr, E. by repeat split.
Qed.

Lemma loadRotationState_call_frame awaited s :
  currentFileId (loadRotationState_call awaited s) = currentFileId s /\
  currentTarget (loadRotationState_call awaited s) = currentTarget s /\
  angle (loadRotationState_call awaited s) = angle s /\
  flipX (loadRotationState_call awaited s) = flipX s /\
  initAttempts (loadRotationState_call awaited s) = initAttempts s /\
  last (loadRotationState_call awaited s) = last s /\
  storage (loadRotationState_call awaited s) = storage s /\
  styled (loadRotationState_call awaited s) = styled s /\
  status (loadRotationState_call awaited s) = status s /\
  phase (loadRotationState_call awaited s) = phase s /\
  debounce_t (loadRotationState_call awaited s) = debounce_t s /\
  retries (loadRotationState_call awaited s) = retries s.
Proof. unfold loadRotationState_call. by destruct (negb _). Qed.

Lemma tick_frame now s :
  currentTarget (tick now s) = currentTarget s /\
  angle (tick now s) = angle s /\ flipX (tick now s) = flipX s /\
  storage (tick now s) = storage s /\ styled (tick now s) = styled s /\
  status (tick now s) = status s /\ phase (tick now s) = phase s /\
  debounce_t (tick now s) = debounce_t s /\ retries (tick now s) = retries s /\
  last (tick now s) = now.
Proof.
  unfold tick. destruct (String.eqb_spec now (last s)) as [->|_]; [done|].
  destruct (negb (bool_decide _)); [|done].
  match goal with |- context [loadRotationState_call ?a ?x] =>
    destruct (loadRotationState_call_frame a x)
      as (Hf & Ht & Ha & Hx & Hi & Hl & Hs & Hy & Hst & Hp & Hb & Hr)
  end.
  simpl. by rewrite Ht, Ha, Hx, Hl, Hs, Hy, Hst, Hp, Hb, Hr.
Qed.

Lemma initOnDrive_frame href s :
  currentFileId (initOnDrive href s) = Some (fileIdOrGeneral href) /\
  currentTarget (initOnDrive href s) = currentTarget s /\
  angle (initOnDrive href s) = angle s /\ flipX (initOnDrive href s) = flipX s /\
  storage (initOnDrive href s) = storage s /\
  styled (initOnDrive href s) = styled s /\
  initAttempts (initOnDrive href s) = initAttempts s /\
  retries (initOnDrive href s) = retries s /\
  is_Some (status (initOnDrive href s)).
Proof.
  unfold initOnDrive.
  assert (He : forall x, currentFileId (ensureToolbar href x) = currentFileId x /\
             currentTarget (ensureToolbar href x) = currentTarget x /\
             angle (ensureToolbar href x) = angle x /\
             flipX (ensureToolbar href x) = flipX x /\
             storage (ensureToolbar href x) = storage x /\
             styled (ensureToolbar href x) = styled x /\
             initAttempts (ensureToolbar href x) = initAttempts x /\
             retries (ensureToolbar href x) = retries x /\
             is_Some (status (ensureToolbar href x))).
  { intros x. unfold ensureToolbar. destruct (status x) eqn:E; simpl;
      rewrite ?E; repeat split; by eexists. }
  destruct (He (set_currentFileId (Some (fileIdOrGeneral href)) s))
    as (Hf & Ht & Ha & Hx & Hs & Hy & Hi & Hr & Hst).
  destruct (negb _).
  - unfold startWatching, assignTarget. simpl. by rewrite Hf, Ht, Ha, Hx, Hs, Hy, Hi, Hr.
  - match goal with |- context [loadRotationState_call ?a ?x] =>
      destruct (loadRotationState_call_frame a x)
        as (Hf' & Ht' & Ha' & Hx' & Hi' & Hl' & Hs' & Hy' & Hst' & Hp' & Hb' & Hr')
    end.
    rewrite Hf', Ht', Ha', Hx', Hi', Hs', Hy', Hst', Hr'. simpl.
    by rewrite Hf, Ht, Ha, Hx, Hs, Hy, Hi, Hr.
Qed.

Lemma updateToolbarStatus_frame m x :
  currentFileId (updateToolbarStatus m x) = currentFileId x /\
  angle (updateToolbarStatus m x) = angle x /\
  flipX (updateToolbarStatus m x) = flipX x /\
  last (updateToolbarStatus m x) = last x /\
  storage (updateToolbarStatus m x) = storage x /\
  loads (updateToolbarStatus m x) = loads x /\
  phase (updateToolbarStatus m x) = phase x /\
  debounce_t (updateToolbarStatus m x)
    = (match status x, phase x with
       | Some _, Watching => true
       | _, _ => debounce_t x
       end) /\
  initAttempts (updateToolbarStatus m x) = initAttempts x /\
  (status x = None -> status (updateToolbarStatus m x) = None) /\
  (is_Some (status x) -> is_Some (status (updateToolbarStatus m x))).
Proof.
  unfold updateToolbarStatus. destruct (status x) eqn:E.
  - destruct (observeWrite_frame (set_status (Some m) x))
      as (Hf & Ht & Ha & Hx & Hi & Hl & Hs & Hd & Hy & Hst & Hp & Hr & Hb).
    rewrite Hf, Ha, Hx, Hi, Hl, Hs, Hd, Hst, Hp, Hb.
    repeat split; try done; intros _; by eexists.
  - by rewrite E.
Qed.

Lemma assignTarget_body_frame doc s :
  currentFileId (assignTarget_body doc s) = currentFileId s /\
  angle (assignTarget_body doc s) = angle s /\
  flipX (assignTarget_body doc s) = flipX s /\
  last (assignTarget_body doc s) = last s /\
  storage (assignTarget_body doc s) = storage s /\
  loads (assignTarget_body doc s) = loads s /\
  phase (assignTarget_body doc s) = phase s /\
  debounce_t (assignTarget_body doc s)
    = (match phase s with
       | Watching => search_writes doc s || debounce_t s
       | _ => debounce_t s
       end) /\
  initAttempts (assignTarget_body doc s) = initAttempts s + 1 /\
  (status s = None -> status (assignTarget_body doc s) = None) /\
  (is_Some (status s) -> is_Some (status (assignTarget_body doc s))).
Proof.
  unfold assignTarget_body, search_writes.
  destruct (findLargestMediaElement doc) as [el|].
  - change (currentTarget (set_initAttempts (initAttempts s + 1) s))
      with (currentTarget s).
    destruct (negb (same_node el (currentTarget s))).
    + match goal with |- context [updateToolbarStatus ?m ?x] =>
        destruct (updateToolbarStatus_frame m x)
          as (Hf & Ha & Hx & Hl & Hs & Hd & Hp & Hb & Hi & Hn & Hso)
      end.
      rewrite Hf, Ha, Hx, Hl, Hs, Hd, Hp, Hb, Hi. unfold setTarget.
      match goal with |- context [applyTransform ?x] =>
        destruct (applyTransform_frame x)
          as (Hf' & Ht' & Ha' & Hx' & Hi' & Hl' & Hs' & Hd' & Hst' & Hp' & Hb' & Hr')
      end.
      rewrite Hf', Ha', Hx', Hi', Hl', Hs', Hd', Hp', Hb', Hst'.
      cbn [currentTarget phase debounce_t status set_currentTarget set_initAttempts].
      repeat split; try done.
      * by destruct (status s), (phase s).
      * intros E. apply Hn. unfold setTarget. by rewrite Hst'.
      * intros E. apply Hso. unfold setTarget. by rewrite Hst'.
    + repeat split; try done. by destruct (phase s).
  - change (status (set_initAttempts (initAttempts s + 1) s)) with (status s).
    destruct (_ <=? 3).
    + match goal with |- context [updateToolbarStatus ?m ?x] =>
        destruct (updateToolbarStatus_frame m x)
          as (Hf & Ha & Hx & Hl & Hs & Hd & Hp & Hb & Hi & Hn & Hso)
      end.
      cbn [set_retries currentFileId angle flipX last storage loads phase
           debounce_t initAttempts status].
      rewrite Hf, Ha, Hx, Hl, Hs, Hd, Hp, Hb, Hi.
      cbn [phase debounce_t status set_initAttempts].
      repeat split; try done.
      destruct (status s), (phase s); try done; by rewrite bool_decide_eq_true_2.
    + match goal with |- context [updateToolbarStatus ?m ?x] =>
        destruct (updateToolbarStatus_frame m x)
          as (Hf & Ha & Hx & Hl & Hs & Hd & Hp & Hb & Hi & Hn & Hso)
      end.
      rewrite Hf, Ha, Hx, Hl, Hs, Hd, Hp, Hb, Hi.
      cbn [phase debounce_t status set_initAttempts].
      repeat split; try done.
      destruct (status s), (phase s); try done; by rewrite bool_decide_eq_true_2.
Qed.

(** ** Navigation Watcher *)

(** X5: a run of [tick] never touches the angle, the flip, the target, the
    written styles or the storage; it resets the attempt counter exactly
    when the address differs from the last one seen; and a second run on the
    same address changes nothing more. *)
Theorem X5_tick_handles_an_address_once (now : string) (s : State) :
  tick now (tick now s) = tick now s /\
  initAttempts (tick now s) = (if String.eqb now (last s) then initAttempts s else 0) /\
  currentTarget (tick now s) = currentTarget s /\
  angle (tick now s) = angle s /\ flipX (tick now s) = flipX s /\
  storage (tick now s) = storage s /\ styled (tick now s) = styled s.
Proof.
  destruct (tick_frame now s) as (Ht & Ha & Hx & Hs & Hy & _ & _ & _ & _ & Hl).
  split; [|split; [|done]].
  - unfold tick at 1. by rewrite Hl, String.eqb_refl.
  - unfold tick. by destruct (String.eqb now (last s)).
Qed.

(** ** Transform Engine *)

Lemma saveState_idem accepted fileId state items :
  saveState accepted fileId state (saveState accepted fileId state items)
  = saveState accepted fileId state items.
Proof.
  unfold saveState, storage_set. destruct (negb _); [done|].
  destruct accepted; [|done]. apply insert_insert_eq.
Qed.

Lemma apply_and_save_idem accepted s :
  apply_and_save accepted (apply_and_save accepted s) = apply_and_save accepted s /\
  applyTransform (applyTransform s) = applyTransform s.
Proof.
  destruct s as [fid [el|] a f att l sto lds sty sta ph deb ret];
    unfold apply_and_save, applyTransform, observeWrite, assignTarget, current_record;
    destruct ph;
    cbn [currentFileId currentTarget angle flipX initAttempts last storage loads
         styled status phase debounce_t retries set_styled set_storage
         set_debounce_t];
    rewrite ?saveState_idem; try done;
    rewrite lookup_insert_eq; cbn [mbind option_bind a_objectFit];
    rewrite insert_insert_eq;
    by destruct (String.eqb (tagName el) "VIDEO").
Qed.

(** X6: [applyTransform] does nothing without a target; with one it writes
    on that element only; and applying it again changes nothing. *)
Theorem X6_applyTransform_is_idempotent_and_local (s : State) :
  applyTransform (applyTransform s) = applyTransform s /\
  (currentTarget s = None -> applyTransform s = s) /\
  (forall n, (forall el, currentTarget s = Some el -> node el <> n) ->
             styled (applyTransform s) !! n = styled s !! n).
Proof.
  split; [apply apply_and_save_idem with (accepted := true)|]. split.
  - intros H. unfold applyTransform. by rewrite H.
  - intros n Hn. rewrite applyTransform_styled.
    destruct (currentTarget s) as [el|]; [|done].
    apply lookup_insert_ne. by apply Hn.
Qed.

(** ** Toolbar UI *)

(** X7: each keyboard shortcut, in either letter case, does exactly what a
    click on the corresponding button does. *)
Theorem X7_shortcuts_act_like_buttons (accepted : bool) (s : State) :
  onKeydown (mkKeyEvent true "R" false) accepted s = onClick (Some "right") accepted s /\
  onKeydown (mkKeyEvent true "r" false) accepted s = onClick (Some "right") accepted s /\
  onKeydown (mkKeyEvent true "L" false) accepted s = onClick (Some "left") accepted s /\
  onKeydown (mkKeyEvent true "l" false) accepted s = onClick (Some "left") accepted s /\
  onKeydown (mkKeyEvent true "F" false) accepted s = onClick (Some "flip") accepted s /\
  onKeydown (mkKeyEvent true "f" false) accepted s = onClick (Some "flip") accepted s /\
  onKeydown (mkKeyEvent true "0" false) accepted s = onClick (Some "reset") accepted s.
Proof. repeat split. Qed.

Lemma reset_idem accepted s :
  apply_and_save accepted
    (set_flipX false (set_angle 0
       (apply_and_save accepted (set_flipX false (set_angle 0 s)))))
  = apply_and_save accepted (set_flipX false (set_angle 0 s)).
Proof.
  assert (E : set_flipX false (set_angle 0
                (apply_and_save accepted (set_flipX false (set_angle 0 s))))
              = apply_and_save accepted (set_flipX false (set_angle 0 s))).
  { destruct s as [fid [el|] a f att l sto lds sty sta ph deb ret];
      destruct ph; reflexivity. }
  rewrite E. apply apply_and_save_idem.
Qed.

(** X8: reset, by click or by Shift+0, sets angle 0 and no flip, and a
    second reset (same outcome of the write) leaves the whole state as the
    first one left it. *)
Theorem X8_reset_is_idempotent (accepted : bool) (s : State) :
  angle (onClick (Some "reset") accepted s) = 0 /\
  flipX (onClick (Some "reset") accepted s) = false /\
  onClick (Some "reset") accepted (onClick (Some "reset") accepted s)
    = onClick (Some "reset") accepted s /\
  onKeydown (mkKeyEvent true "0" false) accepted
    (onKeydown (mkKeyEvent true "0" false) accepted s)
    = onKeydown (mkKeyEvent true "0" false) accepted s.
Proof.
  change (onKeydown (mkKeyEvent true "0" false) accepted)
    with (onClick (Some "reset") accepted).
  change (onClick (Some "reset") accepted s)
    with (apply_and_save accepted (set_flipX false (set_angle 0 s))).
  destruct (apply_and_save_frame accepted (set_flipX false (set_angle 0 s)))
    as (_ & _ & Ha & Hx & _).
  repeat split; [exact Ha|exact Hx|apply reset_idem|apply reset_idem].
Qed.

(** X9: flip, by click or by Shift+F, negates the flip and keeps the angle;
    two flips in a row restore both. *)
Theorem X9_flip_is_an_involution (acc1 acc2 : bool) (s : State) :
  flipX (onClick (Some "flip") acc1 s) = negb (flipX s) /\
  angle (onClick (Some "flip") acc1 s) = angle s /\
  flipX (onClick (Some "flip") acc2 (onClick (Some "flip") acc1 s)) = flipX s /\
  angle (onClick (Some "flip") acc2 (onClick (Some "flip") acc1 s)) = angle s /\
  flipX (onKeydown (mkKeyEvent true "f" false) acc2
           (onKeydown (mkKeyEvent true "F" false) acc1 s)) = flipX s.
Proof.
  change (onKeydown (mkKeyEvent true "f" false) acc2)
    with (onClick (Some "flip") acc2).
  change (onKeydown (mkKeyEvent true "F" false) acc1 s)
    with (onClick (Some "flip") acc1 s).
  assert (H : forall acc x,
    flipX (onClick (Some "flip") acc x) = negb (flipX x) /\
    angle (onClick (Some "flip") acc x) = angle x).
  { intros acc x.
    change (onClick (Some "flip") acc x)
      with (apply_and_save acc (set_flipX (negb (flipX x)) x)).
    destruct (apply_and_save_frame acc (set_flipX (negb (flipX x)) x))
      as (_ & _ & Ha & Hx & _). by rewrite Ha, Hx. }
  destruct (H acc1 s) as [F1 A1].
  destruct (H acc2 (onClick (Some "flip") acc1 s)) as [F2 A2].
  rewrite F2, A2, F1, A1, negb_involutive. by repeat split.
Qed.

(** ** File context and persistence *)

Lemma context_ok_same s s' :
  currentFileId s' = currentFileId s -> status s' = status s ->
  context_ok s -> context_ok s'.
Proof. unfold context_ok. by intros -> ->. Qed.

Lemma context_ok_set f s' :
  currentFileId s' = Some f -> truthy_str f = true -> context_ok s'.
Proof. unfold context_ok. by intros -> ?. Qed.

Lemma context_ok_step s ev : context_ok s -> context_ok (step s ev).
Proof.
  intros H.
  destruct ev as [href|href|action acc|e acc|now| | | |doc|]; unfold step.
  - destruct (phase s); try done. unfold init. by destruct (isDriveUrl href).
  - destruct (phase s); try done.
    destruct (initOnDrive_frame href s) as (Hf & _).
    eapply context_ok_set; [exact Hf|apply fileIdOrGeneral_truthy].
  - destruct (status s); [|done]. destruct action as [action|]; [|done].
    destruct (onClick_shape action acc s) as (a & f & ->).
    destruct (apply_and_save_frame acc (set_flipX f (set_angle a s)))
      as (Hf & _ & _ & _ & _ & _ & _ & Hst & _).
    by apply (context_ok_same s).
  - destruct (status s); [|done].
    destruct (onKeydown_shape e acc s) as [->|(a & f & ->)]; [done|].
    destruct (apply_and_save_frame acc (set_flipX f (set_angle a s)))
      as (Hf & _ & _ & _ & _ & _ & _ & Hst & _).
    by apply (context_ok_same s).
  - destruct (tick_frame now s) as (_ & _ & _ & _ & _ & Hst & _).
    revert Hst. unfold tick. destruct (String.eqb now (last s)); [done|].
    destruct (negb (bool_decide _)); [|by intros _].
    match goal with |- context [loadRotationState_call ?a ?x] =>
      destruct (loadRotationState_call_frame a x) as (Hf & _)
    end.
    intros _. eapply context_ok_set; [|apply (fileIdOrGeneral_truthy now)].
    cbn [currentFileId set_initAttempts]. by rewrite Hf.
  - destruct (loads s) as [|[saved awaited] rest]; [done|].
    destruct (loadRotationState_resume_frame saved (set_loads rest s))
      as (Hf & _ & _ & _ & _ & _ & Hst & _).
    apply (context_ok_same s); [| |done];
      destruct awaited; unfold startWatching, assignTarget;
      cbn [currentFileId status set_debounce_t set_phase]; by rewrite ?Hf, ?Hst.
  - by destruct (phase s).
  - by destruct (retries s).
  - destruct (debounce_t s); [|done].
    destruct (assignTarget_body_frame doc (set_debounce_t false s))
      as (Hf & _ & _ & _ & _ & _ & _ & _ & _ & Hn & _).
    unfold context_ok in *. rewrite Hf. cbn [currentFileId set_debounce_t].
    destruct (currentFileId s); [done|]. by apply Hn.
  - done.
Qed.

Lemma context_ok_run s evs : context_ok s -> context_ok (run s evs).
Proof.
  revert s. induction evs as [|ev evs IH]; intros s H; [done|].
  apply IH. by apply context_ok_step.
Qed.

Lemma write_through action s :
  truthy_id (currentFileId s) = true ->
  currentFileId (onClick (Some action) true s) = currentFileId s /\
  loadState (currentFileId s) (storage (onClick (Some action) true s))
  = Some (mkSaved (Some (angle (onClick (Some action) true s)))
                  (Some (flipX (onClick (Some action) true s)))).
Proof.
  intros Hf. destruct (onClick_shape action true s) as (a & f & ->).
  destruct (apply_and_save_frame true (set_flipX f (set_angle a s)))
    as (-> & _ & -> & -> & _ & _ & _ & _ & _ & _ & _ & _ & ->).
  split; [done|]. cbn [currentFileId storage angle flipX set_flipX set_angle current_record].
  destruct (currentFileId s) as [g|]; [|done].
  apply loadState_saveState_same. by apply truthy_str_ne.
Qed.

(** X10: in every state the script can reach in which the toolbar exists, a
    click on one of its buttons whose write the browser accepts leaves the
    storage holding, for the current file, exactly the angle and flip that
    are then in memory. *)
Theorem X10_clicks_are_written_through (href : string) (items : gmap string Saved)
    (evs : list Event) (action : string) :
  is_Some (status (run (initial href items) evs)) ->
  loadState (currentFileId (step (run (initial href items) evs) (EvClick (Some action) true)))
            (storage (step (run (initial href items) evs) (EvClick (Some action) true)))
  = Some (mkSaved
            (Some (angle (step (run (initial href items) evs) (EvClick (Some action) true))))
            (Some (flipX (step (run (initial href items) evs) (EvClick (Some action) true))))).
Proof.
  set (s := run (initial href items) evs). intros [st Hst].
  assert (Hc : context_ok s) by (by apply context_ok_run).
  unfold context_ok in Hc. unfold step. rewrite Hst.
  destruct (currentFileId s) as [f|] eqn:Hf; [|congruence].
  destruct (write_through action s) as [E1 E2]; [by rewrite Hf|].
  by rewrite E1, Hf, <- E2, Hf.
Qed.

Lemma X10_clicks_are_written_through_witness :
  loadState (currentFileId (step ready_on_f1 (EvClick (Some "left") true)))
            (storage (step ready_on_f1 (EvClick (Some "left") true)))
  = Some (mkSaved (Some (angle (step ready_on_f1 (EvClick (Some "left") true))))
                  (Some (flipX (step ready_on_f1 (EvClick (Some "left") true))))).
Proof.
  apply (X10_clicks_are_written_through url_f1 ∅
           [EvInit url_f1; EvInitTimer url_f1; EvLoadResolved] "left").
  vm_compute. eauto.
Defined.

(** The start of a page's life: [init] on a Drive address, the timer of
    [initOnDrive], and the callback of its storage read. *)
Lemma init_sequence href0 href href' items :
  isDriveUrl href = true ->
  run (initial href0 items) [EvInit href; EvInitTimer href'; EvLoadResolved]
  = mkState (Some (fileIdOrGeneral href')) None
      (default 0 (loadState (Some (fileIdOrGeneral href')) items ≫= s_angle))
      (default false (loadState (Some (fileIdOrGeneral href')) items ≫= s_flipX))
      0 href0 items [] ∅
      (Some (if isDriveFilePreviewUrl href' then "Looking for media..."
             else "Navigate to file preview"))
      Watching true 0.
Proof.
  intros Hd. unfold run. cbn [foldl].
  assert (E1 : step (initial href0 items) (EvInit href)
               = set_phase Scheduled (initial href0 items)).
  { unfold step, init. cbn [phase initial]. by rewrite Hd. }
  rewrite E1.
  assert (E2 : step (set_phase Scheduled (initial href0 items)) (EvInitTimer href')
    = mkState (Some (fileIdOrGeneral href')) None 0 false 0 href0 items
        [(loadState (Some (fileIdOrGeneral href')) items, true)] ∅
        (Some (if isDriveFilePreviewUrl href' then "Looking for media..."
               else "Navigate to file preview"))
        Initialising false 0).
  { unfold step, initOnDrive, ensureToolbar, loadRotationState_call.
    cbn [phase initial set_phase set_currentFileId set_status set_loads status
         currentFileId truthy_id currentTarget angle flipX initAttempts last
         storage loads styled debounce_t retries].
    rewrite fileIdOrGeneral_truthy. reflexivity. }
  rewrite E2. reflexivity.
Qed.

(** X11: on a Drive page, once [initOnDrive] and its storage read have
    finished, the file context is the one of the address, the angle and flip
    are those of the record stored for it (0 and false for a missing record
    or field), the storage is untouched, and the locate cycle is armed. *)
Theorem X11_initial_load_restores_the_record (href0 href href' : string)
    (items : gmap string Saved) :
  isDriveUrl href = true ->
  currentFileId (run (initial href0 items) [EvInit href; EvInitTimer href'; EvLoadResolved])
    = Some (fileIdOrGeneral href') /\
  angle (run (initial href0 items) [EvInit href; EvInitTimer href'; EvLoadResolved])
    = default 0 (loadState (Some (fileIdOrGeneral href')) items ≫= s_angle) /\
  flipX (run (initial href0 items) [EvInit href; EvInitTimer href'; EvLoadResolved])
    = default false (loadState (Some (fileIdOrGeneral href')) items ≫= s_flipX) /\
  storage (run (initial href0 items) [EvInit href; EvInitTimer href'; EvLoadResolved])
    = items /\
  phase (run (initial href0 items) [EvInit href; EvInitTimer href'; EvLoadResolved])
    = Watching /\
  debounce_t (run (initial href0 items) [EvInit href; EvInitTimer href'; EvLoadResolved])
    = true.
Proof. intros Hd. rewrite (init_sequence href0 href href' items Hd). by repeat split. Qed.

Lemma X11_initial_load_restores_the_record_witness :
  let url := "https://drive.google.com/file/d/abc/view" in
  let items : gmap string Saved :=
    <[(STORAGE_PREFIX ++ "abc")%string := mkSaved (Some 180) (Some true)]> ∅ in
  angle (run (initial url items) [EvInit url; EvInitTimer url; EvLoadResolved]) = 180 /\
  flipX (run (initial url items) [EvInit url; EvInitTimer url; EvLoadResolved]) = true.
Proof.
  intros url items.
  destruct (X11_initial_load_restores_the_record url url url items)
    as (_ & Ha & Hf & _); [reflexivity|].
  split; [exact Ha|exact Hf].
Defined.

(** X12: the orientation survives a page load.  After a button click whose
    write is accepted, in any reachable state with the toolbar, a later page
    load on an address of the same file, started from the storage the click
    left, restores the angle and the flip the click produced. *)
Theorem X12_orientation_survives_a_page_load (href0 href1 href href' : string)
    (items : gmap string Saved) (evs : list Event) (action : string) :
  is_Some (status (run (initial href0 items) evs)) ->
  currentFileId (run (initial href0 items) evs) = Some (fileIdOrGeneral href') ->
  isDriveUrl href = true ->
  angle (run (initial href1
                (storage (step (run (initial href0 items) evs) (EvClick (Some action) true))))
             [EvInit href; EvInitTimer href'; EvLoadResolved])
    = angle (step (run (initial href0 items) evs) (EvClick (Some action) true)) /\
  flipX (run (initial href1
                (storage (step (run (initial href0 items) evs) (EvClick (Some action) true))))
             [EvInit href; EvInitTimer href'; EvLoadResolved])
    = flipX (step (run (initial href0 items) evs) (EvClick (Some action) true)).
Proof.
  set (s := run (initial href0 items) evs). intros [st Hst] Hf Hd.
  rewrite (init_sequence href1 href href' _ Hd). cbn [angle flipX].
  unfold step. rewrite Hst.
  destruct (write_through action s) as [_ E].
  { rewrite Hf. apply fileIdOrGeneral_truthy. }
  rewrite Hf in E. by rewrite E.
Qed.

Lemma X12_orientation_survives_a_page_load_witness :
  angle (run (initial url_f1
                (storage (step ready_on_f1 (EvClick (Some "left") true))))
             [EvInit url_f1; EvInitTimer url_f1; EvLoadResolved]) = 270 /\
  flipX (run (initial url_f1
                (storage (step ready_on_f1 (EvClick (Some "left") true))))
             [EvInit url_f1; EvInitTimer url_f1; EvLoadResolved]) = false.
Proof.
  destruct (X12_orientation_survives_a_page_load url_f1 url_f1 url_f1 url_f1 ∅
              [EvInit url_f1; EvInitTimer url_f1; EvLoadResolved] "left")
    as [Ha Hf].
  - vm_compute. eauto.
  - vm_compute. reflexivity.
  - reflexivity.
  - unfold ready_on_f1. split; [rewrite Ha|rewrite Hf]; vm_compute; reflexivity.
Defined.

Lemma saveState_other_key accepted fileId state items k :
  (forall f, fileId = Some f -> k <> (STORAGE_PREFIX ++ f)%string) ->
  saveState accepted fileId state items !! k = items !! k.
Proof.
  intros Hk. unfold saveState, storage_set. destruct fileId as [f|]; [|done].
  destruct (negb _); [done|]. destruct accepted; [|done].
  apply lookup_insert_ne. intros E. by apply (Hk f).
Qed.

Lemma storage_step_other s ev :
  (forall a acc, ev <> EvClick a acc) -> (forall e acc, ev <> EvKeydown e acc) ->
  storage (step s ev) = storage s.
Proof.
  intros Hc Hk.
  destruct ev as [href|href|action acc|e acc|now| | | |doc|]; unfold step.
  - destruct (phase s); try done. unfold init. by destruct (isDriveUrl href).
  - destruct (phase s); try done. by destruct (initOnDrive_frame href s) as (_ & _ & _ & _ & -> & _).
  - by destruct (Hc action acc).
  - by destruct (Hk e acc).
  - by destruct (tick_frame now s) as (_ & _ & _ & -> & _).
  - destruct (loads s) as [|[saved awaited] rest]; [done|].
    destruct (loadRotationState_resume_frame saved (set_loads rest s))
      as (_ & _ & _ & _ & Hs & _).
    destruct awaited; unfold startWatching, assignTarget;
      cbn [storage set_debounce_t set_phase]; by rewrite Hs.
  - by destruct (phase s).
  - by destruct (retries s).
  - destruct (debounce_t s); [|done].
    by destruct (assignTarget_body_frame doc (set_debounce_t false s))
      as (_ & _ & _ & _ & -> & _).
  - done.
Qed.

(** X13: no event changes what the storage holds under a key other than
    the key of the current file; in particular the orientation saved for one
    file is never altered while another file is current. *)
Theorem X13_only_the_current_file_is_written (s : State) (ev : Event) (k : string) :
  (forall f, currentFileId s = Some f -> k <> (STORAGE_PREFIX ++ f)%string) ->
  storage (step s ev) !! k = storage s !! k.
Proof.
  intros Hk.
  destruct ev as [href|href|action acc|e acc|now| | | |doc|];
    try (rewrite storage_step_other; [done|intros ? ?; discriminate|intros ? ?; discriminate]);
    unfold step; (destruct (status s); [|done]).
  - destruct action as [action|]; [|done].
    destruct (onClick_shape action acc s) as (a & f & ->).
    destruct (apply_and_save_frame acc (set_flipX f (set_angle a s)))
      as (_ & _ & _ & _ & _ & _ & _ & _ & _ & _ & _ & _ & ->).
    by apply saveState_other_key.
  - destruct (onKeydown_shape e acc s) as [->|(a & f & ->)]; [done|].
    destruct (apply_and_save_frame acc (set_flipX f (set_angle a s)))
      as (_ & _ & _ & _ & _ & _ & _ & _ & _ & _ & _ & _ & ->).
    by apply saveState_other_key.
Qed.

Lemma X13_only_the_current_file_is_written_witness :
  storage (step switching_to_f2 (EvClick (Some "right") true)) !! "gdr:rotation:f1"
  = storage switching_to_f2 !! "gdr:rotation:f1".
Proof.
  apply (X13_only_the_current_file_is_written switching_to_f2
           (EvClick (Some "right") true) "gdr:rotation:f1").
  intros f Hf. vm_compute in Hf. injection Hf as <-. discriminate.
Defined.

(** ** The target shows the state *)

Lemma in_sync_same s s' :
  currentTarget s' = currentTarget s -> styled s' = styled s ->
  angle s' = angle s -> flipX s' = flipX s -> in_sync s -> in_sync s'.
Proof. unfold in_sync. by intros -> -> -> ->. Qed.

Lemma in_sync_no_target s : currentTarget s = None -> in_sync s.
Proof. unfold in_sync. by intros ->. Qed.

Lemma in_sync_applyTransform s : in_sync (applyTransform s).
Proof.
  unfold in_sync.
  destruct (applyTransform_frame s) as (_ & -> & -> & -> & _).
  rewrite applyTransform_styled.
  destruct (currentTarget s) as [el|]; [|done].
  by rewrite lookup_insert_eq.
Qed.

Lemma in_sync_apply_and_save accepted s : in_sync (apply_and_save accepted s).
Proof.
  destruct (apply_and_save_frame accepted s)
    as (_ & Ht & Ha & Hx & _ & _ & _ & _ & _ & _ & _ & Hy & _).
  destruct (applyTransform_frame s) as (_ & Ht' & Ha' & Hx' & _).
  apply (in_sync_same (applyTransform s)); try congruence.
  apply in_sync_applyTransform.
Qed.

Lemma in_sync_updateToolbarStatus m s : in_sync s -> in_sync (updateToolbarStatus m s).
Proof.
  destruct (updateToolbarStatus_fields m s) as (Ht & Hy & _).
  destruct (updateToolbarStatus_frame m s) as (_ & Ha & Hx & _).
  by apply in_sync_same.
Qed.

Lemma in_sync_step s ev : in_sync s -> in_sync (step s ev).
Proof.
  intros H.
  destruct ev as [href|href|action acc|e acc|now| | | |doc|]; unfold step.
  - destruct (phase s); try done. unfold init. by destruct (isDriveUrl href).
  - destruct (phase s); try done.
    destruct (initOnDrive_frame href s) as (_ & Ht & Ha & Hx & _ & Hy & _).
    by apply (in_sync_same s).
  - destruct (status s); [|done]. destruct action as [action|]; [|done].
    destruct (onClick_shape action acc s) as (a & f & ->).
    apply in_sync_apply_and_save.
  - destruct (status s); [|done].
    destruct (onKeydown_shape e acc s) as [->|(a & f & ->)]; [done|].
    apply in_sync_apply_and_save.
  - destruct (tick_frame now s) as (Ht & Ha & Hx & _ & Hy & _).
    by apply (in_sync_same s).
  - destruct (loads s) as [|[saved awaited] rest]; [done|].
    assert (Hr : in_sync (loadRotationState_resume saved (set_loads rest s))).
    { unfold loadRotationState_resume. set (s' := set_flipX _ _).
      destruct (currentTarget s') eqn:E; [apply in_sync_applyTransform|].
      by apply in_sync_no_target. }
    by destruct awaited.
  - by destruct (phase s).
  - by destruct (retries s).
  - destruct (debounce_t s); [|done]. unfold assignTarget_body.
    destruct (findLargestMediaElement doc) as [el|].
    + destruct (negb _); [|done].
      apply in_sync_updateToolbarStatus. unfold setTarget.
      apply in_sync_applyTransform.
    + destruct (_ <=? 3).
      * apply (in_sync_same (updateToolbarStatus
          ("Searching for media... (" ++
             pretty (initAttempts (set_initAttempts (initAttempts (set_debounce_t false s) + 1)
                                     (set_debounce_t false s))) ++ ")")%string
          (set_initAttempts (initAttempts (set_debounce_t false s) + 1)
             (set_debounce_t false s)))); try done.
        by apply in_sync_updateToolbarStatus.
      * by apply in_sync_updateToolbarStatus.
  - by apply in_sync_no_target.
Qed.

(** X14: in every state the script can reach, the element bound as target,
    if there is one, carries the transform of the angle and flip that are in
    memory: what is displayed never lags behind the state. *)
Theorem X14_target_shows_the_current_orientation (href : string)
    (items : gmap string Saved) (evs : list Event) :
  in_sync (run (initial href items) evs).
Proof.
  assert (H : forall s, in_sync s -> in_sync (run s evs)).
  { induction evs as [|ev evs IH]; intros s Hs; [done|].
    apply IH. by apply in_sync_step. }
  apply H. by apply in_sync_no_target.
Qed.

(** ** Target Locator *)

Lemma media_filter_true el :
  media_filter el = true ->
  30 <= rect_width el /\ 30 <= rect_height el /\
  display el <> "none" /\ visibility el <> "hidden" /\
  (is_Some (offsetParent el) \/ position el = "fixed" \/ position el = "absolute") /\
  50 <= tested_width el /\ 50 <= tested_height el /\
  includes "icon" (src el) = false /\ includes "thumbnail" (src el) = false /\
  includes "favicon" (src el) = false.
Proof.
  unfold media_filter, tested_width, tested_height. rewrite <- !num_or_intrinsic.
  cbv zeta.
  destruct (_ || _) eqn:Hrect; [done|].
  destruct (String.eqb (display el) "none" || _) eqn:Hvis; [done|].
  destruct (negb _ && _ && _) eqn:Hatt; [done|].
  destruct ((_ <? 50) || _) eqn:Hsize; [done|].
  destruct (truthy_str (src el) && _) eqn:Hsrc; [done|]. intros _.
  apply orb_false_iff in Hrect as [Hw%Z.ltb_ge Hh%Z.ltb_ge].
  apply orb_false_iff in Hvis as [Hd%String.eqb_neq Hv%String.eqb_neq].
  apply orb_false_iff in Hsize as [Hsw%Z.ltb_ge Hsh%Z.ltb_ge].
  repeat split; try done.
  - destruct (offsetParent el) as [n|]; [left; by eexists|right].
    cbn in Hatt.
    destruct (String.eqb_spec (position el) "fixed"); [by left|].
    destruct (String.eqb_spec (position el) "absolute"); [by right|done].
  - destruct (truthy_str (src el)) eqn:Ht.
    + cbn in Hsrc. by apply orb_false_iff in Hsrc as [[? ?]%orb_false_iff ?].
    + unfold truthy_str in Ht. apply negb_false_iff, String.eqb_eq in Ht. by rewrite Ht.
  - destruct (truthy_str (src el)) eqn:Ht.
    + cbn in Hsrc. by apply orb_false_iff in Hsrc as [[? ?]%orb_false_iff ?].
    + unfold truthy_str in Ht. apply negb_false_iff, String.eqb_eq in Ht. by rewrite Ht.
  - destruct (truthy_str (src el)) eqn:Ht.
    + cbn in Hsrc. by apply orb_false_iff in Hsrc as [[? ?]%orb_false_iff ?].
    + unfold truthy_str in Ht. apply negb_false_iff, String.eqb_eq in Ht. by rewrite Ht.
Qed.

Lemma findLargestMediaElement_survivor doc el :
  findLargestMediaElement doc = Some el ->
  exists selector, In selector selectors /\ In el (doc selector) /\ media_filter el = true.
Proof.
  rewrite findLargestMediaElement_unfold.
  destruct (collectCandidates_spec doc selectors)
    as [[Hn _]|(pre & s & post & Hsel & _ & Hne & Hc)].
  - by rewrite Hn.
  - rewrite Hc.
    destruct (head_sort area (List.filter media_filter (doc s)) Hne)
      as (x & l1 & l2 & Hh & Hl & _ & _).
    change (sort compareFn) with (sort (by_largest area)). rewrite Hh.
    intros [= <-]. exists s.
    assert (Hin : In x (List.filter media_filter (doc s))).
    { rewrite Hl. apply in_or_app. right. by left. }
    apply filter_In in Hin as [? ?]. repeat split; try done.
    rewrite Hsel. apply in_or_app. right. by left.
Qed.

(** X15: the element a search returns is matched by one of the listed
    selectors and is never one the filter excludes: its rendered box is at
    least 30x30 (so its area is at least 900), it is not hidden by [display]
    or [visibility], it has an offset parent or is positioned fixed or
    absolute, its tested size is at least 50x50, and its source address
    contains none of [icon], [thumbnail], [favicon]. *)
Theorem X15_search_result_passes_the_filter (doc : Document) (el : Element) :
  findLargestMediaElement doc = Some el ->
  (exists selector, In selector selectors /\ In el (doc selector)) /\
  30 <= rect_width el /\ 30 <= rect_height el /\ 900 <= area el /\
  display el <> "none" /\ visibility el <> "hidden" /\
  (is_Some (offsetParent el) \/ position el = "fixed" \/ position el = "absolute") /\
  50 <= tested_width el /\ 50 <= tested_height el /\
  includes "icon" (src el) = false /\ includes "thumbnail" (src el) = false /\
  includes "favicon" (src el) = false.
Proof.
  intros H. destruct (findLargestMediaElement_survivor doc el H) as (s & Hs & Hin & Hf).
  destruct (media_filter_true el Hf) as (Hw & Hh & Hrest).
  split; [by exists s|]. split; [done|]. split; [done|]. split; [|exact Hrest].
  unfold area. nia.
Qed.

Lemma X15_search_result_passes_the_filter_witness :
  (exists selector, In selector selectors /\ In square (doc_tie selector)) /\
  30 <= rect_width square /\ 30 <= rect_height square /\ 900 <= area square /\
  display square <> "none" /\ visibility square <> "hidden" /\
  (is_Some (offsetParent square) \/ position square = "fixed"
   \/ position square = "absolute") /\
  50 <= tested_width square /\ 50 <= tested_height square /\
  includes "icon" (src square) = false /\ includes "thumbnail" (src square) = false /\
  includes "favicon" (src square) = false.
Proof.
  apply (X15_search_result_passes_the_filter doc_tie square). vm_compute. reflexivity.
Defined.

(** X16: sorting the candidates with [compareFn] keeps every candidate,
    orders them by decreasing area, and keeps candidates of equal area in
    the order the selector returned them. *)
Theorem X16_candidates_are_sorted_by_area (l : list Element) :
  Permutation (sort compareFn l) l /\
  descending area (sort compareFn l) /\
  forall k, List.filter (fun c => area c =? k) (sort compareFn l)
            = List.filter (fun c => area c =? k) l.
Proof.
  split; [apply (sort_Permutation area)|].
  split; [apply (sort_descending area)|].
  intros k. apply (sort_stable area).
Qed.

(** ** Locate cycle *)



(** *** The states the script reaches *)

Lemma loads_tick now s :
  loads (tick now s) = loads s \/ exists saved, loads (tick now s) = (loads s ++ [(saved, false)])%list.
Proof.
  unfold tick. destruct (String.eqb now (last s)); [by left|].
  destruct (negb (bool_decide _)); [|by left].
  unfold loadRotationState_call. destruct (negb _); [by left|].
  right. by eexists.
Qed.








(** *** The attempt counter *)



(** *** C8 *)



Lemma search_changes_writes doc s :
  search_changes doc s = true -> search_writes doc s = true.
Proof.
  unfold search_changes, search_writes.
  destruct (findLargestMediaElement doc); [done|].
  destruct (status s); [|done]. intros _. by apply bool_decide_eq_true_2.
Qed.



Lemma changing_search_step doc s :
  phase s = Watching -> debounce_t s = true -> search_changes doc s = true ->
  phase (step s (EvDebounceTimer doc)) = Watching /\
  debounce_t (step s (EvDebounceTimer doc)) = true /\
  initAttempts (step s (EvDebounceTimer doc)) = initAttempts s + 1.
Proof.
  intros Hp Hb Hc. unfold step. rewrite Hb.
  destruct (assignTarget_body_frame doc (set_debounce_t false s))
    as (_ & _ & _ & _ & _ & _ & -> & -> & -> & _).
  cbn [phase debounce_t initAttempts set_debounce_t]. rewrite Hp.
  repeat split; try done.
  rewrite orb_false_r. by apply (search_changes_writes doc s).
Qed.

(** X18: a search that changes the page arms the debounce timer again, so
    the limit of three timer retries does not by itself bring the cycle to
    rest.  As long as each search changes the page, n successive firings of
    the debounce timer alone run n searches and leave the timer pending.
    On a page without media this carries the search past the limit: the
    first three failed searches each show a new count, the fourth shows the
    terminal message and schedules no retry timer, and a fifth search is
    pending. *)
Theorem X18_changing_search_rearms_the_timer (s : State) (docs : list Document) :
  phase s = Watching -> debounce_t s = true ->
  each_search_changes s docs ->
  initAttempts (run s (map EvDebounceTimer docs))
    = initAttempts s + Z.of_nat (length docs) /\
  debounce_t (run s (map EvDebounceTimer docs)) = true.
Proof.
  revert s. induction docs as [|doc docs IH]; intros s Hp Hb Hall.
  { split; [simpl; lia|exact Hb]. }
  destruct Hall as [Hc Hall].
  destruct (changing_search_step doc s Hp Hb Hc) as (Hp' & Hb' & Hi).
  change (run s (map EvDebounceTimer (doc :: docs)))
    with (run (step s (EvDebounceTimer doc)) (map EvDebounceTimer docs)).
  destruct (IH _ Hp' Hb' Hall) as [-> ->]. split; [|done].
  rewrite Hi. cbn [length]. lia.
Qed.

Lemma X18_changing_search_rearms_the_timer_witness :
  let docs := [doc_empty; doc_empty; doc_empty; doc_empty] in
  findLargestMediaElement doc_empty = None /\
  initAttempts ready_on_f1 = 0 /\
  retries (run ready_on_f1 (map EvDebounceTimer docs)) = 3%nat /\
  status (run ready_on_f1 (map EvDebounceTimer docs))
    = Some "No media found - click on image/video" /\
  initAttempts (run ready_on_f1 (map EvDebounceTimer docs))
    = initAttempts ready_on_f1 + Z.of_nat (length docs) /\
  debounce_t (run ready_on_f1 (map EvDebounceTimer docs)) = true.
Proof.
  intros docs. do 4 (split; [vm_compute; reflexivity|]).
  apply (X18_changing_search_rearms_the_timer ready_on_f1 docs).
  - vm_compute. reflexivity.
  - vm_compute. reflexivity.
  - repeat split; vm_compute; reflexivity.
Defined.



(** ** Pages that are not Drive pages *)

Lemma styled_resume_no_target saved s :
  currentTarget s = None -> styled (loadRotationState_resume saved s) = styled s.
Proof.
  intros H. unfold loadRotationState_resume.
  cbn [currentTarget set_flipX set_angle]. by rewrite H.
Qed.

Lemma dormant_step items s ev :
  dormant s /\ styled s = ∅ /\ storage s = items ->
  dormant (step s ev) /\ styled (step s ev) = ∅ /\ storage (step s ev) = items.
Proof.
  intros ((Hp & Hst & Ht & Hb & Hr & Hl) & Hy & Hs). unfold dormant.
  destruct ev as [href|href|action acc|e acc|now| | | |doc|]; unfold step;
    rewrite ?Hp, ?Hst, ?Hb, ?Hr; try done.
  - destruct (tick_frame now s) as (-> & _ & _ & -> & -> & -> & -> & -> & -> & _).
    repeat split; try done.
    destruct (loads_tick now s) as [->|[saved ->]]; [done|].
    apply Forall_app. split; [done|]. by repeat constructor.
  - destruct (loads s) as [|[saved awaited] rest] eqn:El; [by rewrite El|].
    inversion Hl as [|? ? Haw Hrest]; subst. cbn in Haw. subst awaited.
    destruct (loadRotationState_resume_frame saved (set_loads rest s))
      as (_ & -> & _ & _ & -> & -> & -> & -> & -> & ->).
    rewrite styled_resume_no_target by done.
    cbn [currentTarget phase status debounce_t retries loads storage set_loads].
    rewrite Ht. by repeat split.
Qed.

(** X19: when [init] runs on an address that is not a Drive address, then
    whatever happens afterwards (clicks, keys, address changes, timers) the
    script creates no toolbar, binds no element, writes no style and leaves
    the storage as it found it. *)
Theorem X19_inactive_outside_drive (href0 href : string) (items : gmap string Saved)
    (evs : list Event) :
  isDriveUrl href = false ->
  status (run (initial href0 items) (EvInit href :: evs)) = None /\
  currentTarget (run (initial href0 items) (EvInit href :: evs)) = None /\
  styled (run (initial href0 items) (EvInit href :: evs)) = ∅ /\
  storage (run (initial href0 items) (EvInit href :: evs)) = items.
Proof.
  intros Hd.
  change (run (initial href0 items) (EvInit href :: evs))
    with (run (step (initial href0 items) (EvInit href)) evs).
  assert (E : step (initial href0 items) (EvInit href)
              = set_phase Inactive (initial href0 items)).
  { unfold step, init. cbn [phase initial]. by rewrite Hd. }
  rewrite E.
  assert (H : forall s,
    dormant s /\ styled s = ∅ /\ storage s = items ->
    dormant (run s evs) /\ styled (run s evs) = ∅ /\ storage (run s evs) = items).
  { induction evs as [|ev evs IH]; intros s Hs; [done|].
    apply IH. by apply dormant_step. }
  destruct (H (set_phase Inactive (initial href0 items)))
    as ((_ & Hst & Ht & _) & Hy & Hs).
  { unfold dormant. by repeat split. }
  done.
Qed.

Lemma X19_inactive_outside_drive_witness :
  let url := "https://example.org/file/d/f1/view" in
  let evs := [EvInitTimer url; EvClick (Some "right") true; EvTick url_f1;
              EvLoadResolved; EvTrigger; EvDebounceTimer doc_tie] in
  status (run (initial url ∅) (EvInit url :: evs)) = None /\
  currentTarget (run (initial url ∅) (EvInit url :: evs)) = None /\
  styled (run (initial url ∅) (EvInit url :: evs)) = ∅ /\
  storage (run (initial url ∅) (EvInit url :: evs)) = ∅.
Proof.
  intros url evs. apply (X19_inactive_outside_drive url url ∅ evs). reflexivity.
Defined.

(** ** A load that resolves late *)

(** X20: a rotation made while a storage read is still pending is stored
    for the current file, but when the read resolves the angle in memory is
    replaced by the one that was read (0 without a record): the later load
    wins in memory, the rotation wins in the storage. *)
Theorem X20_pending_load_overrides_a_rotation (s : State) (f : string)
    (saved : option Saved) :
  is_Some (status s) ->
  currentFileId s = Some f -> f <> EmptyString ->
  loads s = [(saved, false)] ->
  angle (run s [EvClick (Some "right") true; EvLoadResolved])
    = default 0 (saved ≫= s_angle) /\
  loadState (Some f) (storage (run s [EvClick (Some "right") true; EvLoadResolved]))
    = Some (mkSaved (Some (rotateRight (angle s))) (Some (flipX s))).
Proof.
  intros [st Hst] Hf Hne Hl. unfold run. cbn [foldl].
  assert (E : step s (EvClick (Some "right") true)
              = apply_and_save true (set_angle (rotateRight (angle s)) s)).
  { unfold step. by rewrite Hst. }
  rewrite E.
  destruct (apply_and_save_frame true (set_angle (rotateRight (angle s)) s))
    as (_ & _ & Ha & Hx & _ & _ & Hld & _ & _ & _ & _ & _ & Hs).
  cbn [loads set_angle] in Hld. rewrite Hl in Hld.
  unfold step. rewrite Hld.
  destruct (loadRotationState_resume_fields saved
              (set_loads [] (apply_and_save true (set_angle (rotateRight (angle s)) s))))
    as [Hra _].
  destruct (loadRotationState_resume_frame saved
              (set_loads [] (apply_and_save true (set_angle (rotateRight (angle s)) s))))
    as (_ & _ & _ & _ & Hrs & _).
  rewrite Hra, Hrs. split; [done|].
  cbn [storage set_loads]. rewrite Hs.
  cbn [currentFileId storage set_angle current_record angle flipX]. rewrite Hf.
  by apply loadState_saveState_same.
Qed.

Lemma X20_pending_load_overrides_a_rotation_witness :
  angle (run switching_to_f2 [EvClick (Some "right") true; EvLoadResolved]) = 0 /\
  loadState (Some "f2")
    (storage (run switching_to_f2 [EvClick (Some "right") true; EvLoadResolved]))
    = Some (mkSaved (Some 90) (Some false)).
Proof.
  apply (X20_pending_load_overrides_a_rotation switching_to_f2 "f2" None).
  - vm_compute. eauto.
  - vm_compute. reflexivity.
  - discriminate.
  - vm_compute. reflexivity.
Defined.

(** ** More on addresses, keys and rotations *)

(** X21: an address that does not contain [/file/d/] yields no file
    identifier, and the file context falls back to [general]. *)
Theorem X21_no_file_path_means_general (url : string) :
  includes "/file/d/" url = false ->
  getFileIdFromUrl url = None /\ fileIdOrGeneral url = "general".
Proof.
  intros H.
  assert (Hn : getFileIdFromUrl url = None).
  { induction url as [|c url IH]; [done|].
    rewrite includes_cons in H. apply orb_false_iff in H as [Hp Hi].
    rewrite getFileIdFromUrl_cons, Hp. cbn [andb]. by apply IH. }
  split; [exact Hn|]. unfold fileIdOrGeneral. by rewrite Hn.
Qed.

Lemma X21_no_file_path_means_general_witness :
  getFileIdFromUrl "https://drive.google.com/drive/my-drive" = None /\
  fileIdOrGeneral "https://drive.google.com/drive/my-drive" = "general".
Proof.
  apply (X21_no_file_path_means_general "https://drive.google.com/drive/my-drive").
  reflexivity.
Defined.

(** X22: a key press changes the state only when the user is not typing
    in an input, Shift is held, and the key is R, L or F in either case, or
    0; every other key press leaves the state as it is. *)
Theorem X22_only_the_four_shortcuts_act (e : KeyEvent) (accepted : bool) (s : State) :
  onKeydown e accepted s <> s ->
  typing e = false /\ shiftKey e = true /\
  (toLowerCase (key e) = "r" \/ toLowerCase (key e) = "l" \/
   toLowerCase (key e) = "f" \/ key e = "0").
Proof.
  unfold onKeydown. intros H.
  destruct (typing e); [done|]. destruct (shiftKey e); [|done].
  split; [done|]. split; [done|].
  destruct (String.eqb_spec (toLowerCase (key e)) "r"); [by left|].
  destruct (String.eqb_spec (toLowerCase (key e)) "l"); [by right; left|].
  destruct (String.eqb_spec (key e) "0"); [by right; right; right|].
  destruct (String.eqb_spec (toLowerCase (key e)) "f"); [by right; right; left|].
  done.
Qed.

Lemma X22_only_the_four_shortcuts_act_witness :
  typing (mkKeyEvent true "R" false) = false /\
  shiftKey (mkKeyEvent true "R" false) = true /\
  (toLowerCase (key (mkKeyEvent true "R" false)) = "r" \/
   toLowerCase (key (mkKeyEvent true "R" false)) = "l" \/
   toLowerCase (key (mkKeyEvent true "R" false)) = "f" \/
   key (mkKeyEvent true "R" false) = "0").
Proof.
  apply (X22_only_the_four_shortcuts_act (mkKeyEvent true "R" false) true ready_on_f1).
  intros H. apply (f_equal angle) in H. vm_compute in H. discriminate H.
Defined.

(** X23: with the toolbar in place and an angle among 0, 90, 180, 270, four
    rotations to the right, by clicks or keys in any mix, bring the angle
    back, and so do four rotations to the left; one rotation to the right
    gives the angle that three rotations to the left give. *)
Theorem X23_four_quarter_turns_are_a_full_turn (s : State)
    (rights lefts threeLefts : list Event) (r : Event) :
  is_Some (status s) -> valid_angle (angle s) ->
  Forall rotate_right_event rights -> length rights = 4%nat ->
  Forall rotate_left_event lefts -> length lefts = 4%nat ->
  rotate_right_event r ->
  Forall rotate_left_event threeLefts -> length threeLefts = 3%nat ->
  angle (run s rights) = angle s /\
  angle (run s lefts) = angle s /\
  angle (step s r) = angle (run s threeLefts).
Proof.
  intros Hst Hv Hr Hrl Hl Hll Hr1 Hl3 Hl3l.
  destruct (run_rotate_right s rights Hst Hr) as [-> _].
  destruct (run_rotate_left s lefts Hst Hl) as [-> _].
  destruct (run_rotate_left s threeLefts Hst Hl3) as [-> _].
  destruct (step_rotate_right s r Hst Hr1) as [-> _].
  rewrite Hrl, Hll, Hl3l.
  destruct Hv as [-> | [-> | [-> | ->]]]; by vm_compute.
Qed.

Lemma X23_four_quarter_turns_are_a_full_turn_witness :
  let r := EvClick (Some "right") true in
  let l := EvKeydown (mkKeyEvent true "L" false) true in
  angle (run ready_on_f1 [r; r; r; r]) = angle ready_on_f1 /\
  angle (run ready_on_f1 [l; l; l; l]) = angle ready_on_f1 /\
  angle (step ready_on_f1 r) = angle (run ready_on_f1 [l; l; l]).
Proof.
  intros r l.
  apply (X23_four_quarter_turns_are_a_full_turn ready_on_f1 [r; r; r; r] [l; l; l; l]
           [l; l; l] r).
  - vm_compute. eauto.
  - left. reflexivity.
  - repeat constructor.
  - reflexivity.
  - repeat constructor.
  - reflexivity.
  - constructor.
  - repeat constructor.
  - reflexivity.
Defined.

(** X24: an address change restores the retry budget.  Whatever the attempt
    counter was, the first search after a [tick] that saw a new address is
    attempt 1, and if it fails it schedules a timer retry. *)
Theorem X24_address_change_restores_retries (now : string) (doc : Document) (s : State) :
  now <> last s ->
  findLargestMediaElement doc = None ->
  initAttempts (assignTarget_body doc (tick now s)) = 1 /\
  retries (assignTarget_body doc (tick now s)) = S (retries s).
Proof.
  intros Hnow Hnone.
  assert (Hi : initAttempts (tick now s) = 0).
  { unfold tick. destruct (String.eqb_spec now (last s)); [done|].
    destruct (negb (bool_decide _)); [|done].
    cbn [initAttempts set_initAttempts]. reflexivity. }
  destruct (tick_frame now s) as (_ & _ & _ & _ & _ & _ & _ & _ & Hr & _).
  destruct (assignTarget_body_not_found doc (tick now s) Hnone)
    as (_ & _ & _ & -> & -> & _).
  by rewrite Hi, Hr.
Qed.

Lemma X24_address_change_restores_retries_witness :
  initAttempts (run after_three_failures [EvRetryTimer; EvDebounceTimer doc_empty]) = 4 /\
  initAttempts (assignTarget_body doc_empty
     (tick url_f2 (run after_three_failures [EvRetryTimer; EvDebounceTimer doc_empty]))) = 1 /\
  retries (assignTarget_body doc_empty
     (tick url_f2 (run after_three_failures [EvRetryTimer; EvDebounceTimer doc_empty])))
  = S (retries (run after_three_failures [EvRetryTimer; EvDebounceTimer doc_empty])).
Proof.
  split; [vm_compute; reflexivity|].
  apply (X24_address_change_restores_retries url_f2 doc_empty
           (run after_three_failures [EvRetryTimer; EvDebounceTimer doc_empty])).
  - vm_compute. discriminate.
  - vm_compute. reflexivity.
Defined.
